(** * rd_purge_history: pruning of job-execution history

    A shallow embedding of [rd_purge_history.py].  Python integers are
    unbounded and are modelled by [Z]; execution ids are the strings read
    from the XML attributes.  The remote server is a parameter of the
    development: a state type with one handler per HTTP endpoint that the
    script calls.  Every computation returns, next to its outcome and the
    new server state, the list of events it produced (requests together
    with the answer they got, log lines, pauses), oldest first. *)

From Stdlib Require Import ZArith List String Ascii Bool Lia DecimalString.
From stdpp Require Import base list strings gmap.

Import ListNotations.
Local Open Scope string_scope.
Local Open Scope list_scope.
Local Open Scope Z_scope.

(** ** Exceptions and outcomes *)

Inductive exn : Type :=
| HTTPError (status : Z)          (* [res.raise_for_status()]: a 4xx or 5xx status *)
| ZeroDivisionError               (* [divmod(_, 0)] *)
| ValueError (word : string)      (* [strtobool] on an unknown word, [int] on a
                                     string that is not a number *)
| RequestException (name : string) (* [requests.get], [requests.post]: no answer *)
| ParseError                      (* [etree.fromstring] on a body that is not XML *)
| TypeError                       (* [int(None)]: an attribute that is missing *)
| AttributeError.                 (* [None.get(..)], [None.lower()]: an element or
                                     an attribute that is missing *)

Inductive outcome (A : Type) : Type :=
| Return (a : A)
| Raise (e : exn).

Arguments Return {A} a.
Arguments Raise {A} e.

(** ** Wire data *)

(** [history?project=p&offset=o&max=m[&jobFilter=f]] *)
Record history_request : Type := {
  rq_project : string;
  rq_offset : Z;
  rq_max : Z;
  rq_jobFilter : option string
}.

(** An answer to a history request as the script reads it: what
    [int(history.get('total'))] gives (line 41) and what
    [[event.find('./execution').get('id') for event in root]] gives
    (line 36).  An answer on which the line that reads it raises is not
    such a document: see the handlers below.  An [id] that is missing,
    which Python reads as [None] and passes on, has no counterpart here. *)
Record history_doc : Type := {
  total_attr : Z;
  event_ids : list string
}.

(** An answer to [executions/delete] as the script reads it: what
    [int(fs.find('./successful').get("count"))] gives (line 129), the
    [allsuccessful] attribute as sent, before [strtobool] (line 130), and
    the [message] attribute of every [execution] element (line 133).  An
    answer without a [successful] count that is a number, or without the
    [allsuccessful] attribute, is not such a document: the lines that
    read it raise.  A [message] that is missing has no counterpart
    here. *)
Record delete_doc : Type := {
  successful_count : Z;
  allsuccessful : string;
  execution_messages : list string
}.

(** ** Events *)

Inductive event : Type :=
| EGet (rq : history_request) (resp : outcome history_doc)
| EPost (ids : list string) (resp : outcome delete_doc)
| EInfoPlan (deletions total : Z)      (* "{}/{} histories are going to be deleted.." *)
| EInfoPurge (n : nat) (ids : list string)    (* "Purge {} entries: {}" *)
| EError (messages : gset string)             (* "error-messages:{} " *)
| ESleep.                                     (* [time.sleep(0.1)] *)

(** ** Python built-ins used by the script *)

(** [divmod(a, b)]: floor division, the remainder has the sign of [b]. *)
Definition divmod (a b : Z) : outcome (Z * Z) :=
  if b =? 0 then Raise ZeroDivisionError else Return (a / b, a mod b).

(** [range(n)] *)
Definition range (n : Z) : list Z := map Z.of_nat (seq 0 (Z.to_nat n)).

(** [l[start:]] with Python's treatment of a negative or too large start. *)
Definition slice_from {A : Type} (start : Z) (l : list A) : list A :=
  let len := Z.of_nat (length l) in
  let lo := if start <? 0 then Z.max (len + start) 0 else Z.min start len in
  skipn (Z.to_nat lo) l.

(** [if job_filter:] holds for a string that is present and not empty. *)
Definition truthy (job_filter : option string) : bool :=
  match job_filter with
  | Some EmptyString => false
  | Some _ => true
  | None => false
  end.

Definition lower_ascii (a : ascii) : ascii :=
  let n := nat_of_ascii a in
  if ((65 <=? n) && (n <=? 90))%nat then ascii_of_nat (n + 32) else a.

Fixpoint lower (s : string) : string :=
  match s with
  | EmptyString => EmptyString
  | String a s' => String (lower_ascii a) (lower s')
  end.

Definition mem_string (s : string) (l : list string) : bool :=
  existsb (String.eqb s) l.

(** [distutils.util.strtobool] of Python's standard library: the words it
    accepts, compared in lower case. *)
Definition strtobool (val : string) : outcome bool :=
  let val := lower val in
  if mem_string val ["y"; "yes"; "t"; "true"; "on"; "1"] then Return true
  else if mem_string val ["n"; "no"; "f"; "false"; "off"; "0"] then Return false
  else Raise (ValueError val).

(** ** Computations against a remote server

    Outcome, new server state, events produced.  An exception ends the
    computation and keeps the events produced so far. *)

Section Monad.

Context {remote : Type}.

Definition M (A : Type) : Type := remote -> outcome A * remote * list event.

Definition ret {A : Type} (a : A) : M A := fun s => (Return a, s, []).

Definition bind {A B : Type} (m : M A) (f : A -> M B) : M B :=
  fun s =>
    match m s with
    | (Return a, s1, t1) =>
        match f a s1 with
        | (r, s2, t2) => (r, s2, t1 ++ t2)
        end
    | (Raise e, s1, t1) => (Raise e, s1, t1)
    end.

Definition emit (e : event) : M unit := fun s => (Return tt, s, [e]).

Definition lift {A : Type} (o : outcome A) : M A := fun s => (o, s, []).

End Monad.

Arguments M remote A : clear implicits.

Declare Scope purge_scope.
Delimit Scope purge_scope with purge.
Notation "x <- m ;; k" := (bind m (fun x => k))
  (at level 100, m at next level, right associativity) : purge_scope.
Notation "m ;;; k" := (bind m (fun _ => k))
  (at level 100, right associativity) : purge_scope.
Local Open Scope purge_scope.

(** ** The script, over an arbitrary remote server *)

Section Script.

Context {remote : Type}.

(** What the script gets from [GET history?...] and from
    [POST executions/delete]: the document it reads from the answer, or
    the exception that the request ends with.  The exception is that of
    the call itself ([requests.get] or [requests.post] without an answer;
    [raise_for_status], which raises [HTTPError] for a 4xx or 5xx status
    and for no other) or that of the lines which read the answer
    ([etree.fromstring], and the [int(..)] and [.find(..).get(..)] of
    lines 36, 41 and 129, 130): between the call and these lines the
    script does nothing else, so that for the run an answer that cannot
    be read is a request that raised.  An answer with any other status is
    read like a 2xx answer. *)
Variable http_get_history : history_request -> remote -> outcome history_doc * remote.
Variable http_post_delete : list string -> remote -> outcome delete_doc * remote.

(** [for x in l: st = body(x, st)] *)
Fixpoint for_each {A S : Type} (l : list A) (body : A -> S -> M remote S) (st : S)
    : M remote S :=
  match l with
  | [] => ret st
  | x :: l' => st' <- body x st ;; for_each l' body st'
  end.

(** [Client.get] on a history path and [Client.post] on
    [executions/delete], with the reading of the answer; the event keeps
    the request with what came of it. *)
Definition client_get (rq : history_request) : M remote history_doc :=
  fun s => let (r, s') := http_get_history rq s in (r, s', [EGet rq r]).

Definition client_post (ids : list string) : M remote delete_doc :=
  fun s => let (r, s') := http_post_delete ids s in (r, s', [EPost ids r]).

(** Lines 19 to 31; the job filter is appended when it is present and
    not empty. *)
Definition search_history (project : string) (job_filter : option string)
    (offset hmax : Z) : M remote history_doc :=
  client_get {| rq_project := project;
                rq_offset := offset;
                rq_max := hmax;
                rq_jobFilter := if truthy job_filter then job_filter else None |}.

(** Line 36 reads the ids off the answer; an answer on which it raises (an
    event without [execution]) is a request that raised, see above. *)
Definition get_execution_ids (project : string) (job_filter : option string)
    (offset hmax : Z) : M remote (list string) :=
  root <- search_history project job_filter offset hmax ;;
  ret (event_ids root).

(** Line 41 reads the total off the answer; an answer on which it raises (a
    [total] that is missing or not a number) is a request that raised. *)
Definition get_history_total (project : string) (job_filter : option string)
    : M remote Z :=
  history <- search_history project job_filter 0 0 ;;
  ret (total_attr history).

(** Lines 123 to 136.  The count and the [allsuccessful] attribute are
    read off the answer (lines 129 and 130); an answer that lacks one of
    them is a request that raised.  [strtobool] on the attribute that was
    sent is a step of its own: it raises [ValueError] for a word it does
    not know, after the request has been answered. *)
Definition delete_executions (ids : list string) (dry_run : bool) : M remote Z :=
  emit (EInfoPurge (length ids) ids) ;;;
  if negb dry_run then
    fs <- client_post ids ;;
    let count := successful_count fs in
    all <- lift (strtobool (allsuccessful fs)) ;;
    if (all : bool) then ret count
    else
      emit (EError (list_to_set (execution_messages fs))) ;;;
      ret count
  else ret 0.

(** Lines 54 and 55 of the script. *)
Definition keep_clamped (total keep_history_size : Z) : Z :=
  Z.min total keep_history_size.

Definition deletions_of (total keep_history_size max_delete_size : Z) : Z :=
  Z.min max_delete_size (total - keep_clamped total keep_history_size).

(** The body of the loop over the full chunks; the loop carries
    [offset] and [deleted]. *)
Definition chunk_body (project : string) (job_filter : option string)
    (total chunk_size : Z) (dry_run : bool) (i : Z) (st : Z * Z) : M remote (Z * Z) :=
  let offset := total - chunk_size * (i + 1) in
  ids <- get_execution_ids project job_filter offset chunk_size ;;
  let ids := slice_from (- chunk_size) ids in
  n <- delete_executions ids dry_run ;;
  emit ESleep ;;;
  ret (offset, snd st + n).

Definition purge_history (project : string) (job_filter : option string)
    (keep_history_size chunk_size max_delete_size : Z) (dry_run : bool) : M remote Z :=
  total <- get_history_total project job_filter ;;
  let deletions := deletions_of total keep_history_size max_delete_size in
  emit (EInfoPlan deletions total) ;;;
  dm <- lift (divmod deletions chunk_size) ;;
  let chunk_num := fst dm in
  let remains := snd dm in
  st <- for_each (range chunk_num)
          (chunk_body project job_filter total chunk_size dry_run) (total, 0) ;;
  let offset := fst st in
  let deleted := snd st in
  if remains >? 0 then
    let offset := offset - remains in
    ids <- get_execution_ids project job_filter offset remains ;;
    n <- delete_executions ids dry_run ;;
    ret (deleted + n)
  else ret deleted.

End Script.

Arguments purge_history {remote} _ _ _ _ _ _ _ _ _.
Arguments delete_executions {remote} _ _ _ _.
Arguments chunk_body {remote} _ _ _ _ _ _ _ _ _ _.
Arguments for_each {remote A S} _ _ _ _.

(** ** Observations on an event list *)

(** The [(offset, max)] of every history request, in order. *)
Definition fetches (t : list event) : list (Z * Z) :=
  flat_map (fun e => match e with
                     | EGet rq _ => [(rq_offset rq, rq_max rq)]
                     | _ => []
                     end) t.

(** The id batch of every [executions/delete] request, in order. *)
Definition posts (t : list event) : list (list string) :=
  flat_map (fun e => match e with
                     | EPost ids _ => [ids]
                     | _ => []
                     end) t.

(** The number of ids in the answer to every history request, in order. *)
Definition fetched_sizes (t : list event) : list nat :=
  flat_map (fun e => match e with
                     | EGet _ (Return doc) => [length (event_ids doc)]
                     | _ => []
                     end) t.

(** The batches that were written to the log as about to be purged. *)
Definition announced (t : list event) : list (list string) :=
  flat_map (fun e => match e with
                     | EInfoPurge _ ids => [ids]
                     | _ => []
                     end) t.

(** The number of error lines in the log. *)
Definition error_lines (t : list event) : nat :=
  length (List.filter (fun e => match e with EError _ => true | _ => false end) t).

(** The sum of the counts that the server confirmed. *)
Definition confirmed (t : list event) : Z :=
  fold_right (fun e acc => match e with
                           | EPost _ (Return doc) => successful_count doc + acc
                           | _ => acc
                           end) 0 t.

(** ** A reference server

    The history of one project, most recent execution first, together with
    the ids that the token may not delete.  A history request answers with
    the current count and the window at the requested offset; a delete
    request removes what it may and reports the rest. *)

Module Archive.

Record state : Type := {
  executions : list string;
  protected : list string
}.

Definition window (offset hmax : Z) (l : list string) : list string :=
  firstn (Z.to_nat hmax) (skipn (Z.to_nat offset) l).

Definition get (rq : history_request) (s : state) : outcome history_doc * state :=
  (Return {| total_attr := Z.of_nat (length (executions s));
             event_ids := window (rq_offset rq) (rq_max rq) (executions s) |}, s).

Definition deletable (s : state) (id : string) : bool :=
  mem_string id (executions s) && negb (mem_string id (protected s)).

Definition post (ids : list string) (s : state) : outcome delete_doc * state :=
  let gone := List.filter (deletable s) ids in
  let kept := List.filter (fun id => negb (deletable s id)) ids in
  (Return {| successful_count := Z.of_nat (length gone);
             allsuccessful := if (length kept =? 0)%nat then "true" else "false";
             execution_messages :=
               map (fun _ => "Unauthorized: Delete execution in project xxx") kept |},
   {| executions := List.filter (fun id => negb (mem_string id gone)) (executions s);
      protected := protected s |}).

(** Ids [n], [n-1], ..., [1] in decimal: the highest is the most recent. *)
Definition id_of (n : nat) : string := NilZero.string_of_uint (Nat.to_uint n).

Definition history (n : nat) : list string := map id_of (rev (seq 1 n)).

(** A project with [n] executions, all of which may be deleted. *)
Definition fresh (n : nat) : state := {| executions := history n; protected := [] |}.

(** The same project when the token may not delete [ids]. *)
Definition guarding (n : nat) (ids : list string) : state :=
  {| executions := history n; protected := ids |}.

Definition run (s : state) (keep_history_size chunk_size max_delete_size : Z)
    (dry_run : bool) : outcome Z * state * list event :=
  purge_history get post "p" None keep_history_size chunk_size max_delete_size dry_run s.

(** A server that ignores [max] and lists everything from the offset
    on. *)
Definition get_unbounded (rq : history_request) (s : state)
    : outcome history_doc * state :=
  (Return {| total_attr := Z.of_nat (length (executions s));
             event_ids := skipn (Z.to_nat (rq_offset rq)) (executions s) |}, s).

End Archive.

(** ** A server with a frozen listing

    Every history request is answered from the same list [snap], whatever
    has been deleted since; every delete request is confirmed in full. *)

Module Mirror.

Definition get (snap : list string) (rq : history_request) (s : unit)
    : outcome history_doc * unit :=
  (Return {| total_attr := Z.of_nat (length snap);
             event_ids := Archive.window (rq_offset rq) (rq_max rq) snap |}, s).

Definition post (ids : list string) (s : unit) : outcome delete_doc * unit :=
  (Return {| successful_count := Z.of_nat (length ids);
             allsuccessful := "true";
             execution_messages := [] |}, s).

End Mirror.

(** ** Reading a run *)

Definition result {R A : Type} (x : outcome A * R * list event) : outcome A :=
  fst (fst x).
Definition final {R A : Type} (x : outcome A * R * list event) : R := snd (fst x).
Definition trace {R A : Type} (x : outcome A * R * list event) : list event := snd x.

(** The id list of every answered history request, in order. *)
Definition fetched (t : list event) : list (list string) :=
  flat_map (fun e => match e with
                     | EGet _ (Return doc) => [event_ids doc]
                     | _ => []
                     end) t.

(** The request that [get_history_total] sends. *)
Definition count_request (project : string) (job_filter : option string)
    : history_request :=
  {| rq_project := project;
     rq_offset := 0;
     rq_max := 0;
     rq_jobFilter := if truthy job_filter then job_filter else None |}.

(** The offsets of the loop over [n] full chunks, and the value of
    [offset] when the loop is left. *)
Definition chunk_offsets (total chunk_size n : Z) : list Z :=
  map (fun i => total - chunk_size * (i + 1)) (range n).

Definition exit_offset (total chunk_size n : Z) : Z :=
  if 0 <? n then total - chunk_size * n else total.

(** All the [(offset, max)] that a run without exception asks for after
    the count query. *)
Definition planned_fetches (total chunk_size n r : Z) : list (Z * Z) :=
  map (fun o => (o, chunk_size)) (chunk_offsets total chunk_size n)
  ++ (if r >? 0 then [(exit_offset total chunk_size n - r, r)] else []).

(** A server whose answer to every history request can be read, and one
    whose answer to every delete request can be read and carries an
    [allsuccessful] word that [strtobool] accepts. *)
Definition get_ok {remote : Type}
    (get : history_request -> remote -> outcome history_doc * remote) : Prop :=
  forall rq s, exists doc, fst (get rq s) = Return doc.

Definition post_ok {remote : Type}
    (post : list string -> remote -> outcome delete_doc * remote) : Prop :=
  forall ids s, exists doc b,
    fst (post ids s) = Return doc /\ strtobool (allsuccessful doc) = Return b.

(** A server whose history answers are windows of one fixed list. *)
Definition answers_from {remote : Type} (snap : list string)
    (get : history_request -> remote -> outcome history_doc * remote) : Prop :=
  forall rq s doc, fst (get rq s) = Return doc ->
    event_ids doc = Archive.window (rq_offset rq) (rq_max rq) snap.

(** ** What follows the loop *)

Section Remainder.

Context {remote : Type}.
Variable get : history_request -> remote -> outcome history_doc * remote.
Variable post : list string -> remote -> outcome delete_doc * remote.
Variables (project : string) (job_filter : option string) (dry_run : bool).

(** Lines 76 to 81 as a function of the state in which the loop ends. *)
Definition purge_rest (remains : Z) (st : Z * Z) : M remote Z :=
if remains >? 0 then
  ids <- get_execution_ids get project job_filter (fst st - remains) remains ;;
  n <- delete_executions post ids dry_run ;;
  ret (snd st + n)
else ret (snd st).

End Remainder.

(** The request that [get_execution_ids] sends. *)
Definition fetch_request (project : string) (job_filter : option string)
    (offset hmax : Z) : history_request :=
  {| rq_project := project; rq_offset := offset; rq_max := hmax;
     rq_jobFilter := if truthy job_filter then job_filter else None |}.

(** ** Predicates on runs *)

(** A predicate on event lists that holds of the empty list and is kept
    by concatenation holds of a run as soon as it holds of its steps. *)
Record closed (P : list event -> Prop) : Prop := {
  closed_nil : P [];
  closed_app : forall t1 t2, P t1 -> P t2 -> P (t1 ++ t2)
}.

Definition always {remote A : Type} (P : list event -> Prop) (m : M remote A) : Prop :=
  forall s, P (trace (m s)).

(** Every batch in [bs] lies beyond the first [K] entries of [snap]. *)
Definition batches_in (K : nat) (snap : list string) (bs : list (list string)) : Prop :=
  Forall (fun b => forall id, In id b -> In id (skipn K snap)) bs.

(** ** Failed requests *)

(** The exception of a request that raised. *)
Definition failure (e : event) : option exn :=
  match e with
  | EGet _ (Raise ex) => Some ex
  | EPost _ (Raise ex) => Some ex
  | _ => None
  end.

Definition quiet (t : list event) : Prop := Forall (fun e => failure e = None) t.

(** A run in which a failed request, if there is one, is the last event
    and gives the outcome. *)
Definition settled {R A : Type} (x : outcome A * R * list event) : Prop :=
  match result x with
  | Return _ => quiet (trace x)
  | Raise ex =>
      quiet (trace x) \/
      exists pre ev, trace x = pre ++ [ev] /\ quiet pre /\ failure ev = Some ex
  end.

(** A trace whose last event accounts for the exception [ex]: a request
    that failed with it, or the answer to a delete request whose
    [allsuccessful] attribute [strtobool] rejects with it. *)
Definition ends_badly (t : list event) (ex : exn) : Prop :=
  (exists pre rq, t = pre ++ [EGet rq (Raise ex)]) \/
  (exists pre ids, t = pre ++ [EPost ids (Raise ex)]) \/
  (exists pre ids fs, t = pre ++ [EPost ids (Return fs)] /\
     strtobool (allsuccessful fs) = Raise ex).

(** A run whose exception, if it ends with one, is accounted for by its
    last event or is one of [other]. *)
Definition explained {R A : Type} (other : exn -> Prop)
    (x : outcome A * R * list event) : Prop :=
  match result x with
  | Return _ => True
  | Raise ex => other ex \/ ends_badly (trace x) ex
  end.

(** A server that never lists more ids than [max] asks for. *)
Definition honours_max {remote : Type}
    (get : history_request -> remote -> outcome history_doc * remote) : Prop :=
  forall rq s doc, fst (get rq s) = Return doc ->
    Z.of_nat (length (event_ids doc)) <= Z.max 0 (rq_max rq).

(** What the events of a run say about its requests. *)
Definition request_of (project : string) (job_filter : option string) (e : event) : Prop :=
  match e with
  | EGet rq _ =>
      rq_project rq = project /\
      rq_jobFilter rq = (if truthy job_filter then job_filter else None)
  | _ => True
  end.

(** ** The script as a whole

    Lines 148 to 163: the projects to purge, then [purge_history] for
    each of them in turn.  Of the parsed arguments only those that reach
    [purge_history] or select the projects are kept; the host and the
    token only reach the server through [Client], which is the pair of
    handlers here.  [http_get_projects] is what the script gets from
    [GET projects]: the [name] of every project as line 16 reads it from
    the answer, or the exception of [Client.get] or of the lines that
    read the answer. *)

Record arguments : Type := {
  arg_job_filter : option string;
  arg_keep_history_size : Z;
  arg_max_delete_size : Z;
  arg_chunk_size : Z;
  arg_dry_run : bool;
  arg_project : option string
}.

Inductive script_event : Type :=
| SGetProjects (resp : outcome (list string))
| SPurge (project : string) (e : event)
| STotal (deleted : Z).                        (* "Total deleted: {}" *)

Section Main.

Context {remote : Type}.
Variable http_get_history : history_request -> remote -> outcome history_doc * remote.
Variable http_post_delete : list string -> remote -> outcome delete_doc * remote.
Variable http_get_projects : remote -> outcome (list string) * remote.

Definition get_projects (s : remote) : outcome (list string) * remote * list script_event :=
  let (r, s') := http_get_projects s in (r, s', [SGetProjects r]).

(** [for project in projects: ...] *)
Fixpoint purge_projects (args : arguments) (projects : list string) (s : remote)
    : outcome unit * remote * list script_event :=
  match projects with
  | [] => (Return tt, s, [])
  | project :: projects' =>
      match purge_history http_get_history http_post_delete project
              (arg_job_filter args) (arg_keep_history_size args) (arg_chunk_size args)
              (arg_max_delete_size args) (arg_dry_run args) s with
      | (Return deleted, s1, t) =>
          match purge_projects args projects' s1 with
          | (r, s2, t') => (r, s2, map (SPurge project) t ++ STotal deleted :: t')
          end
      | (Raise e, s1, t) => (Raise e, s1, map (SPurge project) t)
      end
  end.

Definition main (args : arguments) (s : remote)
    : outcome unit * remote * list script_event :=
  match (if truthy (arg_project args)
         then (Return (match arg_project args with Some p => [p] | None => [] end), s, [])
         else get_projects s) with
  | (Return projects, s1, t) =>
      match purge_projects args projects s1 with
      | (r, s2, t') => (r, s2, t ++ t')
      end
  | (Raise e, s1, t) => (Raise e, s1, t)
  end.

End Main.

(** ** Observations on the events of the script *)

Definition purge_events (t : list script_event) : list event :=
  flat_map (fun e => match e with SPurge _ e' => [e'] | _ => [] end) t.

Definition totals (t : list script_event) : list Z :=
  flat_map (fun e => match e with STotal k => [k] | _ => [] end) t.

Definition listings (t : list script_event) : nat :=
  length (List.filter (fun e => match e with SGetProjects _ => true | _ => false end) t).

Definition script_failure (e : script_event) : option exn :=
  match e with
  | SGetProjects (Raise ex) => Some ex
  | SPurge _ e' => failure e'
  | _ => None
  end.

(** An event of the loop over [projects]: a total, or an event of the
    purge of one of them whose request, if it is one, names that project
    and carries [job_filter]. *)
Definition purges (projects : list string) (job_filter : option string)
    (e : script_event) : Prop :=
  match e with
  | SPurge p e' => In p projects /\ request_of p job_filter e'
  | STotal _ => True
  | SGetProjects _ => False
  end.

Definition script_quiet (t : list script_event) : Prop :=
  Forall (fun e => script_failure e = None) t.

Definition script_settled {R A : Type} (x : outcome A * R * list script_event) : Prop :=
  match fst (fst x) with
  | Return _ => script_quiet (snd x)
  | Raise ex =>
      script_quiet (snd x) \/
      exists pre ev, snd x = pre ++ [ev] /\ script_quiet pre /\ script_failure ev = Some ex
  end.

(** ** A server that goes down

    The reference server behind a budget of requests: once the budget is
    used up every request is answered with status 503, for which
    [raise_for_status] raises. *)

Module Flaky.

Definition state : Type := (nat * Archive.state)%type.

Definition get (rq : history_request) (s : state) : outcome history_doc * state :=
  match fst s with
  | O => (Raise (HTTPError 503), s)
  | S n => let (r, a) := Archive.get rq (snd s) in (r, (n, a))
  end.

Definition post (ids : list string) (s : state) : outcome delete_doc * state :=
  match fst s with
  | O => (Raise (HTTPError 503), s)
  | S n => let (r, a) := Archive.post ids (snd s) in (r, (n, a))
  end.

(** Every project of the server has the same history. *)
Definition projects (names : list string) (s : state) : outcome (list string) * state :=
  match fst s with
  | O => (Raise (HTTPError 503), s)
  | S n => (Return names, (n, snd s))
  end.

End Flaky.

(** The state of the reference server with history [e] and nothing
    protected. *)
Definition unguarded (e : list string) : Archive.state :=
  {| Archive.executions := e; Archive.protected := [] |}.

(** The reference server with an answer to delete requests that
    [strtobool] does not understand. *)
Definition vague_post (ids : list string) (s : Archive.state)
    : outcome delete_doc * Archive.state :=
  let (r, s') := Archive.post ids s in
  (match r with
   | Return d =>
       Return {| successful_count := successful_count d;
                 allsuccessful := "maybe";
                 execution_messages := execution_messages d |}
   | Raise e => Raise e
   end, s').

(** The reference server listing the projects [names]. *)
Definition serving (names : list string) (s : Archive.state)
    : outcome (list string) * Archive.state :=
  (Return names, s).

(** Arguments as [parse_args] gives them when only the token is passed,
    but for the numbers, which are those of the examples. *)
Definition example_args (dry_run : bool) (project : option string) : arguments :=
  {| arg_job_filter := None;
     arg_keep_history_size := 2;
     arg_max_delete_size := 10;
     arg_chunk_size := 2;
     arg_dry_run := dry_run;
     arg_project := project |}.

(** ** Projections of a run *)

Lemma result_run {R A : Type} (r : outcome A) (s : R) (t : list event) :
  result (r, s, t) = r.
Proof. reflexivity. Qed.

Lemma final_run {R A : Type} (r : outcome A) (s : R) (t : list event) :
  final (r, s, t) = s.
Proof. reflexivity. Qed.

Lemma trace_run {R A : Type} (r : outcome A) (s : R) (t : list event) :
  trace (r, s, t) = t.
Proof. reflexivity. Qed.

(** ** Observations distribute over concatenation *)

Lemma fetches_app t1 t2 : fetches (t1 ++ t2) = fetches t1 ++ fetches t2.
Proof. unfold fetches. now rewrite flat_map_app. Qed.

Lemma posts_app t1 t2 : posts (t1 ++ t2) = posts t1 ++ posts t2.
Proof. unfold posts. now rewrite flat_map_app. Qed.

Lemma fetched_app t1 t2 : fetched (t1 ++ t2) = fetched t1 ++ fetched t2.
Proof. unfold fetched. now rewrite flat_map_app. Qed.

Lemma announced_app t1 t2 : announced (t1 ++ t2) = announced t1 ++ announced t2.
Proof. unfold announced. now rewrite flat_map_app. Qed.

Lemma confirmed_app t1 t2 : confirmed (t1 ++ t2) = confirmed t1 + confirmed t2.
Proof.
  induction t1 as [|e t1 IH]; simpl; [reflexivity|].
  destruct e as [ | ids [doc|err] | | | | ]; rewrite ?IH; lia.
Qed.

(** ** Python built-ins *)

Lemma divmod_nonzero a b : b <> 0 -> divmod a b = Return (a / b, a mod b).
Proof. intros Hb. unfold divmod. now destruct (Z.eqb_spec b 0). Qed.

Lemma divmod_zero a : divmod a 0 = Raise ZeroDivisionError.
Proof. reflexivity. Qed.

Lemma range_nonpos n : n <= 0 -> range n = [].
Proof. intros Hn. unfold range. now replace (Z.to_nat n) with 0%nat by lia. Qed.

Lemma range_succ n : 0 <= n -> range (n + 1) = range n ++ [n].
Proof.
  intros Hn. unfold range.
  replace (Z.to_nat (n + 1)) with (S (Z.to_nat n)) by lia.
  rewrite seq_S, map_app. simpl. now rewrite Z2Nat.id.
Qed.

Lemma in_range i n : In i (range n) <-> 0 <= i < n.
Proof.
  unfold range. rewrite in_map_iff. split.
  - intros (k & <- & Hk). apply in_seq in Hk. lia.
  - intros Hi. exists (Z.to_nat i). split; [lia|]. apply in_seq. lia.
Qed.

Lemma length_range n : length (range n) = Z.to_nat n.
Proof. unfold range. now rewrite length_map, length_seq. Qed.

Lemma slice_from_incl {A : Type} (start : Z) (l : list A) x :
  In x (slice_from start l) -> In x l.
Proof.
  unfold slice_from. intros Hx.
  rewrite <- (firstn_skipn (Z.to_nat
    (if start <? 0 then Z.max (Z.of_nat (length l) + start) 0
     else Z.min start (Z.of_nat (length l)))) l).
  apply in_or_app. now right.
Qed.

(** [ids[-k:]] for a positive [k] keeps at most [k] elements: the last
    ones. *)
Lemma slice_from_last_length {A : Type} (k : Z) (l : list A) :
  0 < k -> Z.of_nat (length (slice_from (- k) l)) = Z.min k (Z.of_nat (length l)).
Proof.
  intros Hk. unfold slice_from.
  destruct (Z.ltb_spec (- k) 0) as [_|]; [|lia].
  rewrite length_skipn. lia.
Qed.

Lemma slice_from_last_suffix {A : Type} (k : Z) (l : list A) :
  0 < k -> exists dropped, l = dropped ++ slice_from (- k) l.
Proof.
  intros _. unfold slice_from.
  eexists. symmetry. apply firstn_skipn.
Qed.

(** ** Reasoning about runs *)

Section Runs.

Context {remote : Type}.
Variable get : history_request -> remote -> outcome history_doc * remote.
Variable post : list string -> remote -> outcome delete_doc * remote.

Lemma bind_run {A B : Type} (m : M remote A) (f : A -> M remote B) s :
  bind m f s =
  match result (m s) with
  | Return a => (result (f a (final (m s))), final (f a (final (m s))),
                 trace (m s) ++ trace (f a (final (m s))))
  | Raise e => (Raise e, final (m s), trace (m s))
  end.
Proof.
  unfold bind, result, final, trace.
  destruct (m s) as [[[a|e] s1] t1]; simpl; [|reflexivity].
  now destruct (f a s1) as [[r s2] t2].
Qed.

Lemma bind_returned {A B : Type} (m : M remote A) (f : A -> M remote B) s a :
  result (m s) = Return a ->
  result (bind m f s) = result (f a (final (m s))) /\
  final (bind m f s) = final (f a (final (m s))) /\
  trace (bind m f s) = trace (m s) ++ trace (f a (final (m s))).
Proof. intros Hr. rewrite bind_run, Hr. now repeat split. Qed.

Lemma bind_raised {A B : Type} (m : M remote A) (f : A -> M remote B) s e :
  result (m s) = Raise e ->
  result (bind m f s) = Raise e /\
  final (bind m f s) = final (m s) /\
  trace (bind m f s) = trace (m s).
Proof. intros Hr. rewrite bind_run, Hr. now repeat split. Qed.

Lemma always_ret {A : Type} P (a : A) : closed P -> always (remote:=remote) P (ret a).
Proof. intros HP s. apply (closed_nil _ HP). Qed.

Lemma always_lift {A : Type} P (o : outcome A) :
  closed P -> always (remote:=remote) P (lift o).
Proof. intros HP s. apply (closed_nil _ HP). Qed.

Lemma always_emit P e : P [e] -> always (remote:=remote) P (emit e).
Proof. intros He s. exact He. Qed.

(** The continuation only has to be considered at the values that the
    first computation can return. *)
Lemma always_bind {A B : Type} P (R : A -> Prop) (m : M remote A) (f : A -> M remote B) :
  closed P ->
  (forall s a, result (m s) = Return a -> R a) ->
  always P m ->
  (forall a, R a -> always P (f a)) ->
  always P (bind m f).
Proof.
  intros HP HR Hm Hf s. rewrite bind_run.
  destruct (result (m s)) as [a|e] eqn:Er; unfold trace at 1; simpl.
  - apply (closed_app _ HP); [apply Hm|]. apply Hf. now apply (HR s).
  - apply Hm.
Qed.

Lemma always_for_each {A S : Type} P (l : list A) (body : A -> S -> M remote S) :
  closed P ->
  (forall x st, In x l -> always P (body x st)) ->
  forall st, always P (for_each l body st).
Proof.
  intros HP. induction l as [|x l IH]; intros Hbody st; simpl.
  - now apply always_ret.
  - apply (always_bind P (fun _ => True)); auto.
    + apply Hbody. now left.
    + intros st' _. apply IH. intros y st'' Hy. apply Hbody. now right.
Qed.

Lemma client_get_run rq s :
  client_get get rq s = (fst (get rq s), snd (get rq s), [EGet rq (fst (get rq s))]).
Proof. unfold client_get. now destruct (get rq s). Qed.

Lemma client_post_run ids s :
  client_post post ids s
  = (fst (post ids s), snd (post ids s), [EPost ids (fst (post ids s))]).
Proof. unfold client_post. now destruct (post ids s). Qed.

(** [get_execution_ids] sends one request and hands back the ids of the
    answer. *)
Lemma get_execution_ids_run project job_filter offset hmax s :
  let rq := {| rq_project := project; rq_offset := offset; rq_max := hmax;
               rq_jobFilter := if truthy job_filter then job_filter else None |} in
  get_execution_ids get project job_filter offset hmax s =
  (match fst (get rq s) with
   | Return doc => Return (event_ids doc)
   | Raise e => Raise e
   end, snd (get rq s), [EGet rq (fst (get rq s))]).
Proof.
  intros rq. unfold get_execution_ids, search_history. rewrite bind_run.
  fold rq. rewrite client_get_run. unfold result, final, trace. simpl.
  now destruct (fst (get rq s)).
Qed.

Lemma get_history_total_run project job_filter s :
  let rq := count_request project job_filter in
  get_history_total get project job_filter s =
  (match fst (get rq s) with
   | Return doc => Return (total_attr doc)
   | Raise e => Raise e
   end, snd (get rq s), [EGet rq (fst (get rq s))]).
Proof.
  intros rq. unfold get_history_total, search_history. rewrite bind_run.
  fold (count_request project job_filter). fold rq.
  rewrite client_get_run. unfold result, final, trace. simpl.
  now destruct (fst (get rq s)).
Qed.

(** The four ways [delete_executions] can go. *)
Lemma delete_executions_dry ids s :
  delete_executions post ids true s = (Return 0, s, [EInfoPurge (length ids) ids]).
Proof. reflexivity. Qed.

Lemma delete_executions_run ids s :
  delete_executions post ids false s =
  match fst (post ids s) with
  | Return doc =>
      match strtobool (allsuccessful doc) with
      | Return true =>
          (Return (successful_count doc), snd (post ids s),
           [EInfoPurge (length ids) ids; EPost ids (Return doc)])
      | Return false =>
          (Return (successful_count doc), snd (post ids s),
           [EInfoPurge (length ids) ids; EPost ids (Return doc);
            EError (list_to_set (execution_messages doc))])
      | Raise e =>
          (Raise e, snd (post ids s),
           [EInfoPurge (length ids) ids; EPost ids (Return doc)])
      end
  | Raise e =>
      (Raise e, snd (post ids s), [EInfoPurge (length ids) ids; EPost ids (Raise e)])
  end.
Proof.
  unfold delete_executions, bind, emit, client_post, lift, ret. simpl.
  destruct (post ids s) as [[doc|e] s']; simpl; [|reflexivity].
  destruct (strtobool (allsuccessful doc)) as [[|]|e]; reflexivity.
Qed.

End Runs.

(** ** The loop over the full chunks and what follows it *)

Lemma posts_nil_confirmed t : posts t = [] -> confirmed t = 0.
Proof.
  induction t as [|e t IH]; simpl; [reflexivity|].
  destruct e as [ | ids r | | | | ]; simpl; try exact IH. discriminate.
Qed.

Lemma last_cons_default {A : Type} (l : list A) : forall x d,
  List.last (x :: l) d = List.last l x.
Proof.
  induction l as [|y l IH]; intros x d; [reflexivity|].
  change (List.last (x :: y :: l) d) with (List.last (y :: l) d).
  now rewrite (IH y d), (IH y x).
Qed.

Lemma exit_offset_last total chunk_size n :
  exit_offset total chunk_size n = List.last (chunk_offsets total chunk_size n) total.
Proof.
  unfold exit_offset, chunk_offsets.
  destruct (Z.ltb_spec 0 n) as [Hn|Hn].
  - replace n with ((n - 1) + 1) at 2 by lia.
    rewrite range_succ, map_app by lia. simpl. rewrite List.last_last. f_equal. lia.
  - now rewrite range_nonpos.
Qed.

Section Rest.

Context {remote : Type}.
Variable get : history_request -> remote -> outcome history_doc * remote.
Variable post : list string -> remote -> outcome delete_doc * remote.
Variables (project : string) (job_filter : option string) (dry_run : bool).


Lemma delete_executions_confirmed ids s k :
  result (delete_executions post ids dry_run s) = Return k ->
  k = confirmed (trace (delete_executions post ids dry_run s)).
Proof.
  destruct dry_run.
  - rewrite delete_executions_dry. unfold result, trace. simpl. now intros [= <-].
  - rewrite delete_executions_run.
    destruct (fst (post ids s)) as [doc|e]; [|discriminate].
    destruct (strtobool (allsuccessful doc)) as [[|]|e];
      unfold result, trace; simpl; intros [= <-]; lia.
Qed.

Lemma delete_executions_fetches ids s :
  fetches (trace (delete_executions post ids dry_run s)) = [] /\
  fetched (trace (delete_executions post ids dry_run s)) = [] /\
  announced (trace (delete_executions post ids dry_run s)) = [ids].
Proof.
  destruct dry_run.
  - rewrite delete_executions_dry. now simpl.
  - rewrite delete_executions_run.
    destruct (fst (post ids s)) as [doc|e]; [|now simpl].
    destruct (strtobool (allsuccessful doc)) as [[|]|e]; now simpl.
Qed.

(** What is left of the function once the loop has ended. *)
Lemma purge_rest_run remains st s :
  purge_rest get post project job_filter dry_run remains st s =
  if remains >? 0 then
    let rq := fetch_request project job_filter (fst st - remains) remains in
    match fst (get rq s) with
    | Raise e => (Raise e, snd (get rq s), [EGet rq (Raise e)])
    | Return doc =>
        let del := delete_executions post (event_ids doc) dry_run (snd (get rq s)) in
        (match result del with
         | Return k => Return (snd st + k)
         | Raise e => Raise e
         end, final del, EGet rq (Return doc) :: trace del)
    end
  else (Return (snd st), s, []).
Proof.
  unfold purge_rest. destruct (remains >? 0); [|reflexivity].
  rewrite bind_run, get_execution_ids_run.
  fold (fetch_request project job_filter (fst st - remains) remains).
  unfold result at 1, final, trace. simpl fst. simpl snd.
  destruct (fst (get _ s)) as [doc|e]; [|reflexivity].
  rewrite bind_run. unfold result, final, trace.
  destruct (delete_executions post _ dry_run _) as [[[k|e] s2] t2];
    simpl; rewrite ?app_nil_r; reflexivity.
Qed.

(** Against a server that answers, nothing stops the loop or what
    follows it. *)
Lemma delete_executions_returns ids s :
  dry_run = true \/ post_ok post ->
  exists k, result (delete_executions post ids dry_run s) = Return k.
Proof.
  intros [->|Hpost].
  - rewrite delete_executions_dry. now eexists.
  - destruct dry_run; [rewrite delete_executions_dry; now eexists|].
    rewrite delete_executions_run.
    destruct (Hpost ids s) as (doc & b & -> & ->).
    destruct b; now eexists.
Qed.

Lemma purge_rest_returns remains st s :
  get_ok get -> dry_run = true \/ post_ok post ->
  exists k,
    result (purge_rest get post project job_filter dry_run remains st s) = Return k.
Proof.
  intros Hget Hpost. rewrite purge_rest_run.
  destruct (remains >? 0); [|now eexists].
  cbv zeta.
  destruct (Hget (fetch_request project job_filter (fst st - remains) remains) s)
    as [doc ->].
  destruct (delete_executions_returns (event_ids doc)
      (snd (get (fetch_request project job_filter (fst st - remains) remains)
              s)) Hpost) as [k ->].
  now eexists.
Qed.

(** What follows the loop asks for at most one window, hands the answer
    to [delete_executions] as it came, and adds what was confirmed. *)
Lemma purge_rest_facts remains st s :
  let x := purge_rest get post project job_filter dry_run remains st s in
  fetches (trace x) = (if remains >? 0 then [(fst st - remains, remains)] else []) /\
  announced (trace x) = fetched (trace x) /\
  (length (fetched (trace x)) <= 1)%nat /\
  forall k, result x = Return k -> k = snd st + confirmed (trace x).
Proof.
  intros x. subst x. rewrite purge_rest_run.
  destruct (remains >? 0).
  - cbv zeta. destruct (fst (get _ s)) as [doc|e].
    + pose proof (delete_executions_fetches (event_ids doc)
      (snd (get (fetch_request project job_filter (fst st - remains) remains)
              s)))
        as (Hf & Hd & Ha).
      pose proof (delete_executions_confirmed (event_ids doc)
      (snd (get (fetch_request project job_filter (fst st - remains) remains)
              s))) as Hc.
      rewrite !trace_run, !result_run.
      change (EGet ?rq ?r :: ?t) with ([EGet rq r] ++ t).
      rewrite fetches_app, announced_app, !fetched_app, confirmed_app, Hf, Hd, Ha.
      simpl. repeat split; [lia|].
      intros k. destruct (result (delete_executions post _ dry_run _)) as [k'|e];
        [|discriminate].
      intros [= <-]. now rewrite (Hc k' eq_refl).
    + rewrite !trace_run, !result_run. simpl. repeat split; [lia|discriminate].
  - rewrite !trace_run, !result_run. simpl. repeat split; [lia|].
    intros k [= <-]. lia.
Qed.

(** A dry run posts nothing. *)
Lemma delete_executions_dry_posts ids s :
  dry_run = true -> posts (trace (delete_executions post ids dry_run s)) = [].
Proof. intros ->. now rewrite delete_executions_dry. Qed.

Lemma purge_rest_dry_posts remains st s :
  dry_run = true ->
  posts (trace (purge_rest get post project job_filter dry_run remains st s)) = [].
Proof.
  intros Hdry. rewrite purge_rest_run.
  destruct (remains >? 0); [|reflexivity].
  cbv zeta. destruct (fst (get _ s)) as [doc|e]; [|reflexivity].
  rewrite !trace_run.
  change (EGet ?rq ?r :: ?t) with ([EGet rq r] ++ t).
  now rewrite posts_app, delete_executions_dry_posts.
Qed.

Lemma purge_rest_batch remains st s :
  let rq := fetch_request project job_filter (fst st - remains) remains in
  announced (trace (purge_rest get post project job_filter dry_run remains st s)) = [] \/
  exists doc, 0 < remains /\ fst (get rq s) = Return doc /\
    announced (trace (purge_rest get post project job_filter dry_run remains st s))
    = [event_ids doc].
Proof.
  intros rq. destruct (purge_rest_facts remains st s) as (_ & -> & _ & _).
  rewrite purge_rest_run. destruct (Z.gtb_spec remains 0) as [Hr|Hr]; [|now left].
  cbv zeta. fold rq. destruct (fst (get rq s)) as [doc|e] eqn:Eg; [|now left].
  right. exists doc. repeat split; [lia|].
  pose proof (delete_executions_fetches (event_ids doc) (snd (get rq s)))
    as (_ & Hd & _).
  rewrite trace_run.
  change (EGet ?rq ?r :: ?t) with ([EGet rq r] ++ t).
  now rewrite fetched_app, Hd.
Qed.

End Rest.

Section Loop.

Context {remote : Type}.
Variable get : history_request -> remote -> outcome history_doc * remote.
Variable post : list string -> remote -> outcome delete_doc * remote.
Variables (project : string) (job_filter : option string).
Variables (total chunk_size : Z) (dry_run : bool).

Let body := chunk_body get post project job_filter total chunk_size dry_run.

(** One turn of the loop. *)
Lemma chunk_body_run i st s :
  let offset := total - chunk_size * (i + 1) in
  let rq := fetch_request project job_filter offset chunk_size in
  body i st s =
  match fst (get rq s) with
  | Raise e => (Raise e, snd (get rq s), [EGet rq (Raise e)])
  | Return doc =>
      let del := delete_executions post
                   (slice_from (- chunk_size) (event_ids doc)) dry_run (snd (get rq s)) in
      match result del with
      | Return k =>
          (Return (offset, snd st + k), final del,
           EGet rq (Return doc) :: trace del ++ [ESleep])
      | Raise e => (Raise e, final del, EGet rq (Return doc) :: trace del)
      end
  end.
Proof.
  intros offset rq. unfold body, chunk_body. fold offset.
  rewrite bind_run, get_execution_ids_run.
  fold (fetch_request project job_filter offset chunk_size). fold rq.
  unfold result at 1, final, trace. simpl fst. simpl snd.
  destruct (fst (get rq s)) as [doc|e]; [|reflexivity].
  rewrite bind_run. unfold result, final, trace.
  destruct (delete_executions post _ dry_run (snd (get rq s))) as [[[k|e] s2] t2];
    reflexivity.
Qed.

(** One turn asks for exactly one window, and adds to [deleted] what
    the server confirmed. *)
Lemma chunk_body_facts i st s :
  fetches (trace (body i st s)) = [(total - chunk_size * (i + 1), chunk_size)] /\
  forall st', result (body i st s) = Return st' ->
    fst st' = total - chunk_size * (i + 1) /\
    snd st' = snd st + confirmed (trace (body i st s)).
Proof.
  rewrite chunk_body_run.
  destruct (fst (get _ s)) as [doc|e]; [|split; [reflexivity|discriminate]].
  cbv zeta.
  pose proof (delete_executions_fetches post dry_run
                (slice_from (- chunk_size) (event_ids doc))
      (snd (get (fetch_request project job_filter (total - chunk_size * (i + 1)) chunk_size)
              s)))
    as (Hf & _ & _).
  pose proof (delete_executions_confirmed post dry_run
                (slice_from (- chunk_size) (event_ids doc))
      (snd (get (fetch_request project job_filter (total - chunk_size * (i + 1)) chunk_size)
              s)))
    as Hc.
  destruct (result (delete_executions post _ dry_run _)) as [k|e].
  - unfold result, trace at 1 3. simpl fst. simpl snd. split.
    + change (EGet ?rq ?r :: ?t) with ([EGet rq r] ++ t).
      rewrite !fetches_app, Hf. reflexivity.
    + intros st' [= <-]. simpl. split; [reflexivity|].
      rewrite confirmed_app. simpl. rewrite <- (Hc k eq_refl). lia.
  - unfold result, trace at 1. simpl fst. simpl snd. split; [|discriminate].
    change (EGet ?rq ?r :: ?t) with ([EGet rq r] ++ t).
    rewrite fetches_app, Hf. reflexivity.
Qed.

(** The loop asks for the windows of its indices in order, stops at the
    first exception, and otherwise ends at the last offset with the sum
    of what was confirmed. *)
Lemma for_each_chunks l : forall st s,
  let x := for_each l body st s in
  (exists k, map (fun i => (total - chunk_size * (i + 1), chunk_size)) l
             = fetches (trace x) ++ k) /\
  forall st', result x = Return st' ->
    fetches (trace x) = map (fun i => (total - chunk_size * (i + 1), chunk_size)) l /\
    fst st' = List.last (map (fun i => total - chunk_size * (i + 1)) l) (fst st) /\
    snd st' = snd st + confirmed (trace x).
Proof.
  induction l as [|i l IH]; intros st s x.
  - subst x. simpl. split; [now exists []|].
    intros st' [= <-]. repeat split; lia.
  - subst x.
    change (for_each (i :: l) body st s) with (bind (body i st) (for_each l body) s).
    destruct (chunk_body_facts i st s) as [Hf Hr].
    destruct (result (body i st s)) as [st1|e] eqn:Er.
    + destruct (Hr st1 eq_refl) as [Ho Hd].
      destruct (IH st1 (final (body i st s))) as [[k Hk] Hall].
      destruct (bind_returned (body i st) (for_each l body) s st1 Er)
        as (-> & _ & ->).
      rewrite !fetches_app, Hf. split.
      * exists k. simpl. now rewrite Hk.
      * intros st' Hst'. destruct (Hall st' Hst') as (H1 & H2 & H3).
        rewrite H1. split; [reflexivity|]. split.
        -- rewrite H2, Ho. simpl map. now rewrite last_cons_default.
        -- rewrite confirmed_app. lia.
    + destruct (bind_raised (body i st) (for_each l body) s e Er)
        as (-> & _ & ->).
      rewrite Hf. split; [|discriminate]. now eexists.
Qed.

Lemma for_each_returns l :
  get_ok get -> dry_run = true \/ post_ok post ->
  forall st s, exists st', result (for_each l body st s) = Return st'.
Proof.
  intros Hget Hpost. induction l as [|i l IH]; intros st s.
  - now eexists.
  - change (for_each (i :: l) body st s) with (bind (body i st) (for_each l body) s).
    rewrite bind_run, chunk_body_run.
    destruct (Hget (fetch_request project job_filter (total - chunk_size * (i + 1)) chunk_size) s)
      as [doc ->].
    cbv zeta.
    destruct (delete_executions_returns post dry_run
                (slice_from (- chunk_size) (event_ids doc))
      (snd (get (fetch_request project job_filter (total - chunk_size * (i + 1)) chunk_size)
              s))
                Hpost) as [k ->].
    unfold result at 2. simpl fst. unfold result at 1. simpl fst. apply IH.
Qed.

(** In the loop every batch that is handed to [delete_executions] is
    the slice [ids[-chunk_size:]] of the answer to the request before
    it. *)
Lemma chunk_body_announced i st s :
  announced (trace (body i st s))
  = map (slice_from (- chunk_size)) (fetched (trace (body i st s))).
Proof.
  rewrite chunk_body_run. cbv zeta.
  destruct (fst (get _ s)) as [doc|e]; [|reflexivity].
  pose proof (delete_executions_fetches post dry_run
                (slice_from (- chunk_size) (event_ids doc))
      (snd (get (fetch_request project job_filter (total - chunk_size * (i + 1)) chunk_size)
              s)))
    as (_ & Hd & Ha).
  destruct (result (delete_executions post _ dry_run _)) as [k|e];
    rewrite !trace_run;
    change (EGet ?rq ?r :: ?t) with ([EGet rq r] ++ t);
    rewrite ?announced_app, ?fetched_app, Hd, Ha; reflexivity.
Qed.

Lemma for_each_announced l st s :
  announced (trace (for_each l body st s))
  = map (slice_from (- chunk_size)) (fetched (trace (for_each l body st s))).
Proof.
  apply (always_for_each
           (fun t => announced t = map (slice_from (- chunk_size)) (fetched t))).
  - split; [reflexivity|]. intros t1 t2 H1 H2.
    now rewrite announced_app, fetched_app, map_app, H1, H2.
  - intros i st' _ s'. apply chunk_body_announced.
Qed.

Lemma for_each_dry_posts l st s :
  dry_run = true -> posts (trace (for_each l body st s)) = [].
Proof.
  intros Hdry. apply (always_for_each (fun t => posts t = [])).
  - split; [reflexivity|]. intros t1 t2 H1 H2. now rewrite posts_app, H1, H2.
  - intros i st' _ s'. rewrite chunk_body_run. cbv zeta.
    destruct (fst (get _ s')) as [doc|e]; [|reflexivity].
    pose proof (delete_executions_dry_posts post dry_run
                  (slice_from (- chunk_size) (event_ids doc))
      (snd (get (fetch_request project job_filter (total - chunk_size * (i + 1)) chunk_size)
              s'))
                  Hdry) as Hp.
    destruct (result (delete_executions post _ dry_run _)) as [k|e];
      rewrite !trace_run;
      change (EGet ?rq ?r :: ?t) with ([EGet rq r] ++ t);
      rewrite ?posts_app, Hp; reflexivity.
Qed.

(** Where a batch comes from. *)
Lemma chunk_body_batch i st s :
  let rq := fetch_request project job_filter (total - chunk_size * (i + 1)) chunk_size in
  announced (trace (body i st s)) = [] \/
  exists doc, fst (get rq s) = Return doc /\
    announced (trace (body i st s)) = [slice_from (- chunk_size) (event_ids doc)].
Proof.
  intros rq. rewrite chunk_body_announced, chunk_body_run. cbv zeta. fold rq.
  destruct (fst (get rq s)) as [doc|e] eqn:Eg; [|now left].
  right. exists doc. split; [reflexivity|].
  pose proof (delete_executions_fetches post dry_run
                (slice_from (- chunk_size) (event_ids doc))
                (snd (get rq s))) as (_ & Hd & _).
  destruct (result (delete_executions post _ dry_run _)) as [k|e];
    rewrite !trace_run;
    change (EGet ?rq ?r :: ?t) with ([EGet rq r] ++ t);
    rewrite ?fetched_app, Hd; reflexivity.
Qed.

End Loop.


(** ** The whole function *)

Section Whole.

Context {remote : Type}.
Variable get : history_request -> remote -> outcome history_doc * remote.
Variable post : list string -> remote -> outcome delete_doc * remote.
Variables (project : string) (job_filter : option string).
Variables (keep_history_size chunk_size max_delete_size : Z) (dry_run : bool).

Let purge :=
  purge_history get post project job_filter
    keep_history_size chunk_size max_delete_size dry_run.

(** The run of [purge_history], cut at the places where it can stop. *)
Lemma purge_history_run s :
  purge s =
  let rq := count_request project job_filter in
  match fst (get rq s) with
  | Raise e => (Raise e, snd (get rq s), [EGet rq (Raise e)])
  | Return doc =>
      let total := total_attr doc in
      let d := deletions_of total keep_history_size max_delete_size in
      let head := [EGet rq (Return doc); EInfoPlan d total] in
      if chunk_size =? 0 then (Raise ZeroDivisionError, snd (get rq s), head)
      else
        let loop := for_each (range (d / chunk_size))
                      (chunk_body get post project job_filter total chunk_size dry_run)
                      (total, 0) (snd (get rq s)) in
        match result loop with
        | Raise e => (Raise e, final loop, head ++ trace loop)
        | Return st =>
            let rest := purge_rest get post project job_filter dry_run
                          (d mod chunk_size) st (final loop) in
            (result rest, final rest, head ++ trace loop ++ trace rest)
        end
  end.
Proof.
  unfold purge, purge_history, get_history_total, search_history, client_get.
  fold (count_request project job_filter). cbv zeta.
  unfold bind at 1 2. unfold ret at 1.
  destruct (get (count_request project job_filter) s) as [[doc|e] s0];
    [|reflexivity].
  simpl fst. simpl snd. unfold bind at 1. unfold emit at 1.
  unfold bind at 1. unfold lift at 1. unfold divmod.
  destruct (chunk_size =? 0); [reflexivity|].
  simpl fst. simpl snd.
  match goal with
  | |- context [bind ?m ?f s0] =>
      change (bind m f s0) with
        (bind m (purge_rest get post project job_filter dry_run
                   (deletions_of (total_attr doc) keep_history_size max_delete_size
                    mod chunk_size)) s0)
  end.
  rewrite bind_run.
  destruct (result (for_each _ _ _ s0)) as [st|e]; reflexivity.
Qed.

Let rq0 := count_request project job_filter.

(** The value returned is the sum of the counts that the server
    confirmed. *)
Lemma purge_history_confirmed s k :
  result (purge s) = Return k -> k = confirmed (trace (purge s)).
Proof.
  rewrite purge_history_run. cbv zeta.
  destruct (fst (get _ s)) as [doc|e]; [|discriminate].
  destruct (chunk_size =? 0); [discriminate|].
  set (total := total_attr doc).
  set (d := deletions_of total keep_history_size max_delete_size).
  set (s0 := snd (get (count_request project job_filter) s)).
  destruct (for_each_chunks get post project job_filter total chunk_size dry_run
              (range (d / chunk_size)) (total, 0) s0) as [_ Hall].
  cbv zeta in Hall.
  destruct (result (for_each _ _ _ s0)) as [st|e]; [|discriminate].
  destruct (Hall st eq_refl) as (_ & _ & Hd).
  rewrite result_run, trace_run. intros Hk.
  destruct (purge_rest_facts get post project job_filter dry_run
              (d mod chunk_size) st (final (for_each (range (d / chunk_size))
                 (chunk_body get post project job_filter total chunk_size dry_run)
                 (total, 0) s0))) as (_ & _ & _ & Hc).
  rewrite (Hc k Hk), !confirmed_app, Hd. simpl. lia.
Qed.

(** After the count query the windows are asked for in the planned
    order; an exception cuts the plan short, a run that returns has
    gone through all of it. *)
Lemma purge_history_fetches s doc :
  fst (get rq0 s) = Return doc ->
  chunk_size <> 0 ->
  let total := total_attr doc in
  let d := deletions_of total keep_history_size max_delete_size in
  let plan := planned_fetches total chunk_size (d / chunk_size) (d mod chunk_size) in
  (exists k, (0, 0) :: plan = fetches (trace (purge s)) ++ k) /\
  forall k, result (purge s) = Return k -> fetches (trace (purge s)) = (0, 0) :: plan.
Proof.
  intros Hdoc Hc total d plan. subst plan. unfold planned_fetches.
  rewrite purge_history_run. cbv zeta. fold rq0. rewrite Hdoc.
  destruct (Z.eqb_spec chunk_size 0) as [|_]; [contradiction|].
  fold total. fold d.
  set (s0 := snd (get rq0 s)).
  destruct (for_each_chunks get post project job_filter total chunk_size dry_run
              (range (d / chunk_size)) (total, 0) s0) as [[k Hk] Hall].
  cbv zeta in Hall.
  assert (Hmap : map (fun o => (o, chunk_size))
                   (chunk_offsets total chunk_size (d / chunk_size))
                 = map (fun i => (total - chunk_size * (i + 1), chunk_size))
                     (range (d / chunk_size))).
  { unfold chunk_offsets. now rewrite map_map. }
  rewrite Hmap.
  destruct (result (for_each _ _ _ s0)) as [st|e].
  - destruct (Hall st eq_refl) as (Hf & Ho & _).
    destruct (purge_rest_facts get post project job_filter dry_run
                (d mod chunk_size) st (final (for_each (range (d / chunk_size))
                   (chunk_body get post project job_filter total chunk_size dry_run)
                   (total, 0) s0))) as (Hr & _).
    rewrite result_run, trace_run, !fetches_app, Hf, Hr.
    rewrite exit_offset_last. unfold chunk_offsets. simpl fst in Ho. rewrite <- Ho.
    split; [exists []; now rewrite app_nil_r|]. reflexivity.
  - rewrite result_run, trace_run, fetches_app. split; [|discriminate].
    rewrite Hk. eexists. simpl. rewrite <- app_assoc. reflexivity.
Qed.

(** Against a server that answers, and with a chunk size that is not
    zero, the function returns. *)
Lemma purge_history_returns s :
  get_ok get -> dry_run = true \/ post_ok post -> chunk_size <> 0 ->
  exists k, result (purge s) = Return k.
Proof.
  intros Hget Hpost Hc. rewrite purge_history_run. cbv zeta.
  destruct (Hget (count_request project job_filter) s) as [doc ->].
  destruct (Z.eqb_spec chunk_size 0) as [|_]; [contradiction|].
  set (total := total_attr doc).
  set (d := deletions_of total keep_history_size max_delete_size).
  set (s0 := snd (get (count_request project job_filter) s)).
  destruct (for_each_returns get post project job_filter total chunk_size dry_run
              (range (d / chunk_size)) Hget Hpost (total, 0) s0) as [st ->].
  rewrite result_run. now apply purge_rest_returns.
Qed.

Lemma purge_history_dry_posts s :
  dry_run = true -> posts (trace (purge s)) = [].
Proof.
  intros Hdry. rewrite purge_history_run. cbv zeta.
  destruct (fst (get _ s)) as [doc|e]; [|reflexivity].
  destruct (chunk_size =? 0); [reflexivity|].
  destruct (result (for_each _ _ _ _)) as [st|e];
    rewrite trace_run, !posts_app, ?for_each_dry_posts, ?purge_rest_dry_posts;
    auto.
Qed.

(** The batches handed to [delete_executions], against the answers to
    the requests after the count query: first the loop's, sliced, then
    at most one more, as it came. *)
Lemma purge_history_batches s :
  exists chunks rest,
    tail (fetched (trace (purge s))) = chunks ++ rest /\
    announced (trace (purge s)) = map (slice_from (- chunk_size)) chunks ++ rest /\
    (length rest <= 1)%nat.
Proof.
  rewrite purge_history_run. cbv zeta.
  destruct (fst (get _ s)) as [doc|e]; [|exists [], []; repeat split; simpl; lia].
  destruct (chunk_size =? 0); [exists [], []; repeat split; simpl; lia|].
  set (total := total_attr doc).
  set (d := deletions_of total keep_history_size max_delete_size).
  set (s0 := snd (get (count_request project job_filter) s)).
  set (loop := for_each (range (d / chunk_size))
                 (chunk_body get post project job_filter total chunk_size dry_run)
                 (total, 0) s0).
  pose proof (for_each_announced get post project job_filter total chunk_size dry_run
                (range (d / chunk_size)) (total, 0) s0) as Hl.
  fold loop in Hl.
  destruct (result loop) as [st|e].
  - destruct (purge_rest_facts get post project job_filter dry_run
                (d mod chunk_size) st (final loop)) as (_ & Ha & Hlen & _).
    exists (fetched (trace loop)), (fetched (trace (purge_rest get post project
               job_filter dry_run (d mod chunk_size) st (final loop)))).
    rewrite trace_run, !announced_app, !fetched_app, Hl, Ha. simpl. auto.
  - exists (fetched (trace loop)), [].
    rewrite trace_run, !announced_app, !fetched_app, Hl, !app_nil_r. simpl.
    repeat split. lia.
Qed.

End Whole.

(** ** Windows of a fixed history *)

Lemma in_firstn {A : Type} (n : nat) (l : list A) x : In x (firstn n l) -> In x l.
Proof.
  intros Hx. rewrite <- (firstn_skipn n l). apply in_or_app. now left.
Qed.

Lemma in_skipn {A : Type} (n : nat) (l : list A) x : In x (skipn n l) -> In x l.
Proof.
  intros Hx. rewrite <- (firstn_skipn n l). apply in_or_app. now right.
Qed.

Lemma window_in_skipn (K : nat) offset hmax snap id :
  (K <= Z.to_nat offset)%nat ->
  In id (Archive.window offset hmax snap) -> In id (skipn K snap).
Proof.
  unfold Archive.window. intros HK Hin. apply in_firstn in Hin.
  replace (Z.to_nat offset) with ((Z.to_nat offset - K) + K)%nat in Hin by lia.
  rewrite <- skipn_skipn in Hin. now apply in_skipn in Hin.
Qed.

Lemma length_window offset hmax snap :
  0 <= offset -> 0 <= hmax -> offset + hmax <= Z.of_nat (length snap) ->
  Z.of_nat (length (Archive.window offset hmax snap)) = hmax.
Proof.
  intros Ho Hm Hlen. unfold Archive.window.
  rewrite length_firstn, length_skipn. lia.
Qed.

Lemma nodup_app_disjoint {A : Type} (l1 l2 : list A) x :
  List.NoDup (l1 ++ l2) -> In x l1 -> In x l2 -> False.
Proof.
  induction l1 as [|y l1 IH]; simpl; intros Hnd H1 H2; [contradiction|].
  inversion Hnd as [|? ? Hy Hnd']; subst.
  destruct H1 as [->|H1].
  - apply Hy. apply in_or_app. now right.
  - now apply IH.
Qed.

Lemma skipn_not_in_firstn (K : nat) (snap : list string) id :
  List.NoDup snap -> In id (skipn K snap) -> ~ In id (firstn K snap).
Proof.
  intros Hnd Hs Hf. rewrite <- (firstn_skipn K snap) in Hnd.
  exact (nodup_app_disjoint _ _ id Hnd Hf Hs).
Qed.

Lemma batches_in_app K snap bs1 bs2 :
  batches_in K snap bs1 -> batches_in K snap bs2 -> batches_in K snap (bs1 ++ bs2).
Proof. unfold batches_in. intros H1 H2. apply Forall_app. now split. Qed.

Section Snapshot.

Context {remote : Type}.
Variable get : history_request -> remote -> outcome history_doc * remote.
Variable post : list string -> remote -> outcome delete_doc * remote.
Variables (project : string) (job_filter : option string) (dry_run : bool).
Variables (snap : list string) (K : nat).

Lemma for_each_batches_in total chunk_size l :
  answers_from snap get ->
  (forall i, In i l -> (K <= Z.to_nat (total - chunk_size * (i + 1)))%nat) ->
  forall st s,
    batches_in K snap
      (announced (trace (for_each l
         (chunk_body get post project job_filter total chunk_size dry_run) st s))).
Proof.
  intros Hsnap Hl.
  apply (always_for_each (fun t => batches_in K snap (announced t))).
  - split; [constructor|]. intros t1 t2 H1 H2.
    rewrite announced_app. now apply batches_in_app.
  - intros i st Hi s.
    destruct (chunk_body_batch get post project job_filter total chunk_size
                dry_run i st s) as [->|(doc & Hg & ->)]; [constructor|].
    constructor; [|constructor]. intros id Hid.
    apply slice_from_incl in Hid. rewrite (Hsnap _ _ _ Hg) in Hid.
    apply (window_in_skipn K _ _ _ _ (Hl i Hi) Hid).
Qed.

Lemma purge_rest_batches_in remains st s :
  answers_from snap get ->
  (0 < remains -> (K <= Z.to_nat (fst st - remains))%nat) ->
  batches_in K snap
    (announced (trace (purge_rest get post project job_filter dry_run remains st s))).
Proof.
  intros Hsnap Hr.
  destruct (purge_rest_batch get post project job_filter dry_run remains st s)
    as [->|(doc & Hpos & Hg & ->)]; [constructor|].
  constructor; [|constructor]. intros id Hid.
  rewrite (Hsnap _ _ _ Hg) in Hid.
  apply (window_in_skipn K _ _ _ _ (Hr Hpos) Hid).
Qed.

(** A remainder that was processed to the end went through exactly one
    answered request. *)
Lemma purge_rest_returned remains st s k :
  0 < remains ->
  result (purge_rest get post project job_filter dry_run remains st s) = Return k ->
  exists answer,
    fst (get (fetch_request project job_filter (fst st - remains) remains) s)
      = Return answer /\
    fetched (trace (purge_rest get post project job_filter dry_run remains st s))
      = [event_ids answer].
Proof.
  intros Hpos. rewrite purge_rest_run.
  destruct (Z.gtb_spec remains 0) as [_|]; [|lia].
  cbv zeta. destruct (fst (get _ s)) as [answer|e]; [|discriminate].
  intros _. exists answer. split; [reflexivity|].
  pose proof (delete_executions_fetches post dry_run (event_ids answer)
      (snd (get (fetch_request project job_filter (fst st - remains) remains)
              s)))
    as (_ & Hd & _).
  rewrite trace_run.
  change (EGet ?rq ?r :: ?t) with ([EGet rq r] ++ t).
  now rewrite fetched_app, Hd.
Qed.

End Snapshot.

(** ** The plan for arguments that are not negative *)

Lemma plan_arith total keep_history_size max_delete_size chunk_size :
  0 <= total -> 0 <= keep_history_size -> 0 <= max_delete_size -> 1 <= chunk_size ->
  let d := deletions_of total keep_history_size max_delete_size in
  0 <= d <= total - Z.min total keep_history_size /\
  d = chunk_size * (d / chunk_size) + d mod chunk_size /\
  0 <= d mod chunk_size < chunk_size /\
  0 <= d / chunk_size.
Proof.
  intros Ht Hk Hm Hc d.
  assert (Hd : 0 <= d <= total - Z.min total keep_history_size).
  { unfold d, deletions_of, keep_clamped. lia. }
  split; [exact Hd|]. split; [apply Z.div_mod; lia|].
  split; [apply Z.mod_pos_bound; lia|]. apply Z.div_pos; lia.
Qed.

Lemma exit_offset_nonneg total chunk_size n :
  0 <= n -> exit_offset total chunk_size n = total - chunk_size * n.
Proof.
  intros Hn. unfold exit_offset. destruct (Z.ltb_spec 0 n); [reflexivity|].
  replace n with 0 by lia. lia.
Qed.

Lemma planned_fetches_bound total keep_history_size max_delete_size chunk_size :
  0 <= total -> 0 <= keep_history_size -> 0 <= max_delete_size -> 1 <= chunk_size ->
  let d := deletions_of total keep_history_size max_delete_size in
  Forall (fun om => Z.min total keep_history_size <= fst om /\ 0 <= fst om)
    (planned_fetches total chunk_size (d / chunk_size) (d mod chunk_size)).
Proof.
  intros Ht Hk Hm Hc d.
  destruct (plan_arith total keep_history_size max_delete_size chunk_size Ht Hk Hm Hc)
    as (Hd & Hdiv & Hmod & Hn).
  fold d in Hd, Hdiv, Hmod, Hn.
  unfold planned_fetches. apply Forall_app. split.
  - apply List.Forall_forall. intros om Hom.
    apply in_map_iff in Hom. destruct Hom as (o & <- & Ho).
    unfold chunk_offsets in Ho. apply in_map_iff in Ho. destruct Ho as (i & <- & Hi).
    apply in_range in Hi. simpl. nia.
  - destruct (d mod chunk_size >? 0); [|constructor].
    constructor; [|constructor]. rewrite exit_offset_nonneg by exact Hn. simpl. lia.
Qed.

Section Bounds.

Context {remote : Type}.
Variable get : history_request -> remote -> outcome history_doc * remote.
Variable post : list string -> remote -> outcome delete_doc * remote.
Variables (project : string) (job_filter : option string).
Variables (keep_history_size chunk_size max_delete_size : Z) (dry_run : bool).

(** No window starts inside the part of the history that is kept. *)
Lemma purge_history_offsets s doc :
  fst (get (count_request project job_filter) s) = Return doc ->
  0 <= total_attr doc -> 0 <= keep_history_size -> 0 <= max_delete_size ->
  1 <= chunk_size ->
  Forall (fun om => Z.min (total_attr doc) keep_history_size <= fst om /\ 0 <= fst om)
    (tail (fetches (trace (purge_history get post project job_filter
                             keep_history_size chunk_size max_delete_size dry_run s)))).
Proof.
  intros Hdoc Ht Hk Hm Hc.
  destruct (purge_history_fetches get post project job_filter keep_history_size
              chunk_size max_delete_size dry_run s doc Hdoc ltac:(lia)) as [[k Hk'] _].
  pose proof (planned_fetches_bound (total_attr doc) keep_history_size max_delete_size
                chunk_size Ht Hk Hm Hc) as Hplan.
  cbv zeta in Hplan.
  destruct (fetches (trace _)) as [|f fs]; [constructor|].
  simpl in Hk'. injection Hk' as _ Hk'. rewrite Hk' in Hplan.
  apply Forall_app in Hplan. apply Hplan.
Qed.

(** Against a server that answers from one fixed history, no batch
    contains an id from the part that is kept. *)
Lemma purge_history_batches_in s doc snap :
  answers_from snap get ->
  fst (get (count_request project job_filter) s) = Return doc ->
  0 <= total_attr doc -> 0 <= keep_history_size -> 0 <= max_delete_size ->
  1 <= chunk_size ->
  batches_in (Z.to_nat (Z.min (total_attr doc) keep_history_size)) snap
    (announced (trace (purge_history get post project job_filter
                         keep_history_size chunk_size max_delete_size dry_run s))).
Proof.
  intros Hsnap Hdoc Ht Hk Hm Hc.
  destruct (plan_arith (total_attr doc) keep_history_size max_delete_size chunk_size
              Ht Hk Hm Hc) as (Hd & Hdiv & Hmod & Hn).
  rewrite purge_history_run. cbv zeta. rewrite Hdoc.
  destruct (Z.eqb_spec chunk_size 0) as [|_]; [lia|].
  set (total := total_attr doc) in *.
  set (d := deletions_of total keep_history_size max_delete_size) in *.
  set (s0 := snd (get (count_request project job_filter) s)).
  assert (Hloop : forall st s1,
    batches_in (Z.to_nat (Z.min total keep_history_size)) snap
      (announced (trace (for_each (range (d / chunk_size))
         (chunk_body get post project job_filter total chunk_size dry_run) st s1)))).
  { apply for_each_batches_in; [exact Hsnap|].
    intros i Hi. apply in_range in Hi. nia. }
  destruct (for_each_chunks get post project job_filter total chunk_size dry_run
              (range (d / chunk_size)) (total, 0) s0) as [_ Hall].
  cbv zeta in Hall.
  destruct (result (for_each _ _ _ s0)) as [st|e] eqn:El.
  - destruct (Hall st eq_refl) as (_ & Ho & _).
    simpl fst in Ho. fold (chunk_offsets total chunk_size (d / chunk_size)) in Ho.
    rewrite <- exit_offset_last, exit_offset_nonneg in Ho by exact Hn.
    rewrite trace_run, !announced_app. simpl announced at 1. simpl app at 1.
    apply batches_in_app; [apply Hloop|].
    apply purge_rest_batches_in; [exact Hsnap|]. intros _. rewrite Ho. lia.
  - rewrite trace_run, !announced_app. simpl announced at 1. simpl app at 1.
    apply Hloop.
Qed.

(** A run that returns with a remainder to process has handed the
    answer to one last request, at the offset where the loop ended less
    the remainder, to [delete_executions] as it came. *)
Lemma purge_history_remainder s doc k :
  fst (get (count_request project job_filter) s) = Return doc ->
  chunk_size <> 0 ->
  let total := total_attr doc in
  let d := deletions_of total keep_history_size max_delete_size in
  let x := purge_history get post project job_filter
             keep_history_size chunk_size max_delete_size dry_run s in
  0 < d mod chunk_size ->
  result x = Return k ->
  exists chunks answer s1,
    fst (get (fetch_request project job_filter
                (exit_offset total chunk_size (d / chunk_size) - d mod chunk_size)
                (d mod chunk_size)) s1) = Return answer /\
    tail (fetched (trace x)) = chunks ++ [event_ids answer] /\
    announced (trace x) = map (slice_from (- chunk_size)) chunks ++ [event_ids answer].
Proof.
  intros Hdoc Hc total d x Hr. subst x.
  rewrite purge_history_run. cbv zeta. rewrite Hdoc.
  destruct (Z.eqb_spec chunk_size 0) as [|_]; [contradiction|].
  fold total. fold d.
  set (s0 := snd (get (count_request project job_filter) s)).
  set (loop := for_each (range (d / chunk_size))
                 (chunk_body get post project job_filter total chunk_size dry_run)
                 (total, 0) s0).
  destruct (for_each_chunks get post project job_filter total chunk_size dry_run
              (range (d / chunk_size)) (total, 0) s0) as [_ Hall].
  cbv zeta in Hall. fold loop in Hall.
  pose proof (for_each_announced get post project job_filter total chunk_size dry_run
                (range (d / chunk_size)) (total, 0) s0) as Hl.
  fold loop in Hl.
  destruct (result loop) as [st|e]; [|discriminate].
  destruct (Hall st eq_refl) as (_ & Ho & _).
  simpl fst in Ho. fold (chunk_offsets total chunk_size (d / chunk_size)) in Ho.
  rewrite <- exit_offset_last in Ho.
  rewrite result_run, trace_run. intros Hk.
  destruct (purge_rest_returned get post project job_filter dry_run
              (d mod chunk_size) st (final loop) k Hr Hk) as (answer & Hg & Hf).
  destruct (purge_rest_facts get post project job_filter dry_run
              (d mod chunk_size) st (final loop)) as (_ & Ha & _).
  exists (fetched (trace loop)), answer, (final loop).
  rewrite <- Ho. split; [exact Hg|].
  rewrite !announced_app, !fetched_app, Hl, Ha, Hf. simpl. auto.
Qed.

End Bounds.

(** ** Every step of a run *)

Section Steps.

Context {remote : Type}.
Variable get : history_request -> remote -> outcome history_doc * remote.
Variable post : list string -> remote -> outcome delete_doc * remote.
Variables (project : string) (job_filter : option string).
Variables (keep_history_size chunk_size max_delete_size : Z) (dry_run : bool).

(** A predicate that is kept by concatenation holds of a run of
    [purge_history] when it holds of each request for a window, of the
    line that announces the plan, of each call of [delete_executions] and
    of the pause. *)
Lemma purge_history_steps (P : list event -> Prop) :
  closed P ->
  (forall offset hmax r, P [EGet (fetch_request project job_filter offset hmax) r]) ->
  (forall d t, P [EInfoPlan d t]) ->
  (forall ids s, P (trace (delete_executions post ids dry_run s))) ->
  P [ESleep] ->
  forall s,
    P (trace (purge_history get post project job_filter
                keep_history_size chunk_size max_delete_size dry_run s)).
Proof.
  intros HP Hget Hplan Hdel Hsleep s.
  assert (Hbody : forall total i st s',
    P (trace (chunk_body get post project job_filter total chunk_size dry_run i st s'))).
  { intros total i st s'. rewrite chunk_body_run. cbv zeta.
    destruct (fst (get _ s')) as [doc|e]; [|rewrite trace_run; apply Hget].
    pose proof (Hdel (slice_from (- chunk_size) (event_ids doc))
                  (snd (get (fetch_request project job_filter
                               (total - chunk_size * (i + 1)) chunk_size) s'))) as Hd.
    destruct (result (delete_executions post _ dry_run _)) as [k|e];
      rewrite trace_run;
      change (EGet ?rq ?r :: ?t) with ([EGet rq r] ++ t);
      repeat apply (closed_app _ HP); auto. }
  assert (Hrest : forall remains st s',
    P (trace (purge_rest get post project job_filter dry_run remains st s'))).
  { intros remains st s'. rewrite purge_rest_run.
    destruct (remains >? 0); [|apply (closed_nil _ HP)].
    cbv zeta. destruct (fst (get _ s')) as [doc|e]; rewrite trace_run; [|apply Hget].
    change (EGet ?rq ?r :: ?t) with ([EGet rq r] ++ t).
    apply (closed_app _ HP); auto. }
  rewrite purge_history_run. cbv zeta.
  change (count_request project job_filter) with (fetch_request project job_filter 0 0).
  destruct (fst (get _ s)) as [doc|e]; [|apply Hget].
  assert (Hhead : P [EGet (fetch_request project job_filter 0 0) (Return doc);
                     EInfoPlan (deletions_of (total_attr doc) keep_history_size
                                  max_delete_size) (total_attr doc)]).
  { change (P ([EGet (fetch_request project job_filter 0 0) (Return doc)]
               ++ [EInfoPlan (deletions_of (total_attr doc) keep_history_size
                                max_delete_size) (total_attr doc)])).
    apply (closed_app _ HP); auto. }
  destruct (chunk_size =? 0); [exact Hhead|].
  assert (Hloop : forall l st s',
    P (trace (for_each l (chunk_body get post project job_filter (total_attr doc)
                            chunk_size dry_run) st s'))).
  { intros l st s'. apply (always_for_each P); [exact HP|].
    intros i st' _ s''. apply Hbody. }
  destruct (result (for_each _ _ _ _)) as [st|e]; rewrite trace_run;
    repeat apply (closed_app _ HP); auto.
Qed.

Lemma closed_Forall (Q : event -> Prop) : closed (Forall Q).
Proof. split; [constructor|]. intros t1 t2 H1 H2. apply Forall_app. now split. Qed.

(** The history requests of a run name its project and its filter. *)
Lemma purge_history_request_of s :
  Forall (request_of project job_filter)
    (trace (purge_history get post project job_filter
              keep_history_size chunk_size max_delete_size dry_run s)).
Proof.
  apply (purge_history_steps (Forall (request_of project job_filter))).
  - apply closed_Forall.
  - intros offset hmax r. constructor; [|constructor]. now split.
  - intros d t. now repeat constructor.
  - intros ids s'. destruct dry_run.
    + rewrite delete_executions_dry. now repeat constructor.
    + rewrite delete_executions_run.
      destruct (fst (post ids s')) as [doc|e]; [|now repeat constructor].
      destruct (strtobool (allsuccessful doc)) as [[|]|e]; now repeat constructor.
  - now repeat constructor.
Qed.

End Steps.

(** ** What is posted *)

(** A dry run posts nothing; any other run posts each batch that it
    writes to the log as purged. *)
Lemma purge_history_posts {remote : Type}
    (get : history_request -> remote -> outcome history_doc * remote)
    (post : list string -> remote -> outcome delete_doc * remote)
    (project : string) (job_filter : option string)
    (keep_history_size chunk_size max_delete_size : Z) (dry_run : bool)
    (s : remote) :
  let x := purge_history get post project job_filter
             keep_history_size chunk_size max_delete_size dry_run s in
  posts (trace x) = (if dry_run then [] else announced (trace x)).
Proof.
  intros x. destruct dry_run eqn:Hdry.
  - now apply purge_history_dry_posts.
  - apply (purge_history_steps get post project job_filter keep_history_size
             chunk_size max_delete_size false (fun t => posts t = announced t)).
    + split; [reflexivity|]. intros t1 t2 H1 H2.
      now rewrite posts_app, announced_app, H1, H2.
    + reflexivity.
    + reflexivity.
    + intros ids s'. rewrite delete_executions_run.
      destruct (fst (post ids s')) as [doc|e]; [|reflexivity].
      destruct (strtobool (allsuccessful doc)) as [[|]|e]; reflexivity.
    + reflexivity.
Qed.

(** ** The answers behind the batches *)

Section Split.

Context {remote : Type}.
Variable get : history_request -> remote -> outcome history_doc * remote.
Variable post : list string -> remote -> outcome delete_doc * remote.
Variables (project : string) (job_filter : option string) (dry_run : bool).

(** A turn of the loop reads at most one answer, and exactly one when it
    ends without exception. *)
Lemma chunk_body_answers total chunk_size i st s :
  let x := chunk_body get post project job_filter total chunk_size dry_run i st s in
  (length (fetched (trace x)) <= 1)%nat /\
  forall st', result x = Return st' -> length (fetched (trace x)) = 1%nat.
Proof.
  intros x. subst x. rewrite chunk_body_run. cbv zeta.
  destruct (fst (get _ s)) as [doc|e];
    [|rewrite trace_run, result_run; simpl; split; [lia|discriminate]].
  pose proof (delete_executions_fetches post dry_run
                (slice_from (- chunk_size) (event_ids doc))
                (snd (get (fetch_request project job_filter
                             (total - chunk_size * (i + 1)) chunk_size) s)))
    as (_ & Hd & _).
  destruct (result (delete_executions post _ dry_run _)) as [k|e];
    rewrite trace_run, result_run;
    change (EGet ?rq ?r :: ?t) with ([EGet rq r] ++ t);
    rewrite ?fetched_app, Hd; simpl; split; auto.
Qed.

(** The loop reads at most one answer for each of its turns, and one for
    each when it ends without exception. *)
Lemma for_each_answers total chunk_size l : forall st s,
  let x := for_each l (chunk_body get post project job_filter total chunk_size dry_run)
             st s in
  (length (fetched (trace x)) <= length l)%nat /\
  forall st', result x = Return st' -> length (fetched (trace x)) = length l.
Proof.
  induction l as [|i l IH]; intros st s x.
  - subst x. simpl. split; [lia|reflexivity].
  - subst x.
    change (for_each (i :: l) ?body st s) with (bind (body i st) (for_each l body) s).
    destruct (chunk_body_answers total chunk_size i st s) as [Hle Hone].
    cbv zeta in Hle, Hone.
    destruct (result (chunk_body get post project job_filter total chunk_size
                        dry_run i st s)) as [st1|e] eqn:Er.
    + destruct (bind_returned _ (for_each l (chunk_body get post project job_filter
                                               total chunk_size dry_run)) s st1 Er)
        as (-> & _ & ->).
      destruct (IH st1 (final (chunk_body get post project job_filter total chunk_size
                                 dry_run i st s))) as [IHle IHall].
      cbv zeta in IHle, IHall.
      rewrite fetched_app, length_app, (Hone st1 eq_refl). simpl. split; [lia|].
      intros st' Hst'. now rewrite (IHall st' Hst').
    + destruct (bind_raised _ (for_each l (chunk_body get post project job_filter
                                             total chunk_size dry_run)) s e Er)
        as (-> & _ & ->).
      simpl. split; [lia|discriminate].
Qed.

(** What follows the loop reads an answer only for a remainder, and reads
    it when it ends without exception. *)
Lemma purge_rest_answers remains st s :
  let x := purge_rest get post project job_filter dry_run remains st s in
  (fetched (trace x) <> [] -> 0 < remains) /\
  forall k, result x = Return k ->
    length (fetched (trace x)) = (if remains >? 0 then 1 else 0)%nat.
Proof.
  intros x. subst x. rewrite purge_rest_run.
  destruct (Z.gtb_spec remains 0) as [Hr|Hr].
  - cbv zeta. destruct (fst (get _ s)) as [doc|e].
    + pose proof (delete_executions_fetches post dry_run (event_ids doc)
                    (snd (get (fetch_request project job_filter
                                 (fst st - remains) remains) s)))
        as (_ & Hd & _).
      rewrite trace_run, result_run.
      change (EGet ?rq ?r :: ?t) with ([EGet rq r] ++ t).
      rewrite fetched_app, Hd. simpl. split; [lia|reflexivity].
    + rewrite trace_run, result_run. split; [lia|discriminate].
  - rewrite trace_run, result_run. simpl. split; [congruence|reflexivity].
Qed.

(** The answers to the requests of a run after the count query: those
    read in the loop, at most one for each of the [deletions // chunk_size]
    turns, whose slices are the batches of the loop; then, only after a
    loop that has done all its turns, the answer for the remainder, which
    is its batch as it came. *)
Lemma purge_history_split keep_history_size chunk_size max_delete_size s doc :
  fst (get (count_request project job_filter) s) = Return doc ->
  chunk_size <> 0 ->
  let total := total_attr doc in
  let d := deletions_of total keep_history_size max_delete_size in
  let x := purge_history get post project job_filter
             keep_history_size chunk_size max_delete_size dry_run s in
  exists chunks rest,
    tail (fetched (trace x)) = chunks ++ rest /\
    announced (trace x) = map (slice_from (- chunk_size)) chunks ++ rest /\
    (length chunks <= Z.to_nat (d / chunk_size))%nat /\
    (length rest <= 1)%nat /\
    (rest <> [] -> length chunks = Z.to_nat (d / chunk_size) /\ 0 < d mod chunk_size) /\
    forall k, result x = Return k ->
      length chunks = Z.to_nat (d / chunk_size) /\
      length rest = (if d mod chunk_size >? 0 then 1 else 0)%nat.
Proof.
  intros Hdoc Hc total d x. subst x. rewrite purge_history_run. cbv zeta.
  rewrite Hdoc. destruct (Z.eqb_spec chunk_size 0) as [|_]; [contradiction|].
  fold total. fold d.
  set (s0 := snd (get (count_request project job_filter) s)).
  set (loop := for_each (range (d / chunk_size))
                 (chunk_body get post project job_filter total chunk_size dry_run)
                 (total, 0) s0).
  pose proof (for_each_announced get post project job_filter total chunk_size dry_run
                (range (d / chunk_size)) (total, 0) s0) as Hl.
  destruct (for_each_answers total chunk_size (range (d / chunk_size)) (total, 0) s0)
    as [Hle Hall].
  cbv zeta in Hle, Hall. rewrite length_range in Hle, Hall.
  fold loop in Hl, Hle, Hall.
  destruct (result loop) as [st|e].
  - set (rest := purge_rest get post project job_filter dry_run
                   (d mod chunk_size) st (final loop)).
    destruct (purge_rest_facts get post project job_filter dry_run
                (d mod chunk_size) st (final loop)) as (_ & Ha & Hlen & _).
    destruct (purge_rest_answers (d mod chunk_size) st (final loop)) as [Hne Hret].
    cbv zeta in Ha, Hlen, Hne, Hret. fold rest in Ha, Hlen, Hne, Hret.
    exists (fetched (trace loop)), (fetched (trace rest)).
    rewrite trace_run, result_run, !announced_app, !fetched_app, Hl, Ha. simpl.
    split; [reflexivity|]. split; [reflexivity|]. split; [exact Hle|].
    split; [exact Hlen|]. split.
    + intros Hrest. split; [exact (Hall st eq_refl)|now apply Hne].
    + intros k Hk. split; [exact (Hall st eq_refl)|exact (Hret k Hk)].
  - exists (fetched (trace loop)), [].
    rewrite trace_run, result_run, !announced_app, !fetched_app, Hl, !app_nil_r. simpl.
    split; [reflexivity|]. split; [reflexivity|]. split; [exact Hle|].
    split; [lia|]. split; [congruence|discriminate].
Qed.

(** After an answered count query, the requests of a run are the count
    query and then the planned windows, as far as the run gets. *)
Lemma purge_history_windows keep_history_size chunk_size max_delete_size s doc :
  fst (get (count_request project job_filter) s) = Return doc ->
  chunk_size <> 0 ->
  let total := total_attr doc in
  let d := deletions_of total keep_history_size max_delete_size in
  let plan := planned_fetches total chunk_size (d / chunk_size) (d mod chunk_size) in
  let x := purge_history get post project job_filter
             keep_history_size chunk_size max_delete_size dry_run s in
  (exists k, plan = tail (fetches (trace x)) ++ k) /\
  forall k, result x = Return k -> tail (fetches (trace x)) = plan.
Proof.
  intros Hdoc Hc total d plan x.
  destruct (purge_history_fetches get post project job_filter keep_history_size
              chunk_size max_delete_size dry_run s doc Hdoc Hc) as [[k Hk] Hall].
  cbv zeta in Hk, Hall. fold total d plan x in Hk, Hall.
  assert (Hhead : exists l, fetches (trace x) = (0, 0) :: l).
  { subst x. rewrite purge_history_run. cbv zeta. rewrite Hdoc.
    destruct (chunk_size =? 0); [now eexists|].
    destruct (result (for_each _ _ _ _)); rewrite trace_run; now eexists. }
  destruct Hhead as [l Hl]. rewrite Hl in Hk, Hall |- *. simpl. split.
  - exists k. simpl in Hk. now injection Hk.
  - intros k' Hk'. specialize (Hall k' Hk'). now injection Hall.
Qed.

End Split.

(** The sizes of the planned windows: [n] times the chunk size, then the
    remainder if there is one. *)
Lemma planned_sizes total chunk_size n r :
  map snd (planned_fetches total chunk_size n r)
  = repeat chunk_size (Z.to_nat n) ++ (if r >? 0 then [r] else []).
Proof.
  unfold planned_fetches, chunk_offsets. rewrite map_app, !map_map. simpl.
  f_equal; [|now destruct (r >? 0)].
  rewrite <- (length_range n). induction (range n) as [|i l IH]; simpl; congruence.
Qed.

(** ** The reference server answers *)

Lemma Archive_get_ok : get_ok Archive.get.
Proof. intros rq s. now eexists. Qed.

Lemma Archive_post_ok : post_ok Archive.post.
Proof.
  intros ids s. unfold Archive.post. simpl.
  destruct (length (List.filter (fun id => negb (Archive.deletable s id)) ids) =? 0)%nat;
    do 2 eexists; split; reflexivity.
Qed.

(** * Properties *)

(** ** The plan *)

(** C1. For [total], [keep_history_size] and [max_delete_size] that are
    not negative, the number of deletions that [purge_history] computes,
    and writes to its log right after the count query, is
    [min(maxDelete, max(0, total - min(total, keepCount)))], and it is at
    most [total]. *)
Theorem deletions_formula {remote : Type}
    (get : history_request -> remote -> outcome history_doc * remote)
    (post : list string -> remote -> outcome delete_doc * remote)
    (project : string) (job_filter : option string)
    (keep_history_size chunk_size max_delete_size : Z) (dry_run : bool)
    (s : remote) (doc : history_doc) :
  fst (get (count_request project job_filter) s) = Return doc ->
  0 <= total_attr doc -> 0 <= keep_history_size -> 0 <= max_delete_size ->
  let total := total_attr doc in
  let deletions :=
    Z.min max_delete_size (Z.max 0 (total - Z.min total keep_history_size)) in
  deletions_of total keep_history_size max_delete_size = deletions /\
  deletions <= total /\
  exists t,
    trace (purge_history get post project job_filter
             keep_history_size chunk_size max_delete_size dry_run s)
    = EGet (count_request project job_filter) (Return doc)
      :: EInfoPlan deletions total :: t.
Proof.
  intros Hdoc Ht Hk Hm total deletions.
  assert (Hd : deletions_of total keep_history_size max_delete_size = deletions).
  { unfold deletions_of, keep_clamped, deletions. lia. }
  split; [exact Hd|]. split; [unfold deletions; lia|].
  rewrite purge_history_run. cbv zeta. rewrite Hdoc. fold total. rewrite Hd.
  destruct (chunk_size =? 0); [now eexists|].
  destruct (result (for_each _ _ _ _)); rewrite trace_run; now eexists.
Qed.

Lemma deletions_formula_witness :
  fst (Archive.get (count_request "p" None) (Archive.fresh 5))
    = Return {| total_attr := 5; event_ids := [] |} /\
  0 <= 5 /\ 0 <= 2 /\ 0 <= 10 /\
  deletions_of 5 2 10 = 3 /\
  3 <= 5 /\
  exists t,
    trace (Archive.run (Archive.fresh 5) 2 2 10 false)
    = EGet (count_request "p" None) (Return {| total_attr := 5; event_ids := [] |})
      :: EInfoPlan 3 5 :: t.
Proof.
  split; [reflexivity|]. do 3 (split; [lia|]).
  apply (deletions_formula Archive.get Archive.post "p" None 2 2 10 false
           (Archive.fresh 5) {| total_attr := 5; event_ids := [] |});
    [reflexivity | simpl; lia | lia | lia].
Defined.

(** C6. For [deletions >= 0] and [chunk_size >= 1] the [divmod] of line 59
    gives [purge_history] a quotient and a remainder with
    [chunk_num * chunk_size + remains = deletions] and
    [0 <= remains < chunk_size], and this is the partition that the run
    works through: after the count query it asks for [chunk_num] windows
    of [chunk_size] records and then, if [remains > 0], for one window of
    [remains] records, in this order and as far as it gets; a run that
    returns has asked for all of them, and against a server that answers
    the run returns. *)
Theorem chunk_partition {remote : Type}
    (get : history_request -> remote -> outcome history_doc * remote)
    (post : list string -> remote -> outcome delete_doc * remote)
    (project : string) (job_filter : option string)
    (keep_history_size chunk_size max_delete_size : Z) (dry_run : bool)
    (s : remote) (doc : history_doc) :
  fst (get (count_request project job_filter) s) = Return doc ->
  let total := total_attr doc in
  let deletions := deletions_of total keep_history_size max_delete_size in
  let x := purge_history get post project job_filter
             keep_history_size chunk_size max_delete_size dry_run s in
  0 <= deletions -> 1 <= chunk_size ->
  exists chunk_num remains,
    divmod deletions chunk_size = Return (chunk_num, remains) /\
    chunk_num * chunk_size + remains = deletions /\
    0 <= remains < chunk_size /\
    let sizes := repeat chunk_size (Z.to_nat chunk_num)
                 ++ (if remains >? 0 then [remains] else []) in
    (exists k, sizes = map snd (tail (fetches (trace x))) ++ k) /\
    (forall k, result x = Return k -> map snd (tail (fetches (trace x))) = sizes) /\
    (get_ok get -> dry_run = true \/ post_ok post -> exists k, result x = Return k).
Proof.
  intros Hdoc total deletions x Hd Hc.
  exists (deletions / chunk_size), (deletions mod chunk_size).
  split; [apply divmod_nonzero; lia|]. split.
  { rewrite Z.mul_comm. symmetry. apply Z.div_mod. lia. }
  split; [apply Z.mod_pos_bound; lia|].
  intros sizes. subst sizes. rewrite <- planned_sizes with (total := total).
  destruct (purge_history_windows get post project job_filter dry_run keep_history_size
              chunk_size max_delete_size s doc Hdoc ltac:(lia)) as [[k Hk] Hall].
  cbv zeta in Hk, Hall. fold total deletions x in Hk, Hall.
  split; [|split].
  - exists (map snd k). now rewrite Hk, map_app.
  - intros k' Hk'. now rewrite (Hall k' Hk').
  - intros Hget Hpost.
    apply (purge_history_returns get post project job_filter keep_history_size
             chunk_size max_delete_size dry_run s Hget Hpost). lia.
Qed.

(** 55 executions of which 20 are kept, in chunks of 20: one window of
    20 and one of 15. *)
Lemma chunk_partition_witness :
  fst (Archive.get (count_request "p" None) (Archive.fresh 55))
    = Return {| total_attr := 55; event_ids := [] |} /\
  0 <= deletions_of 55 20 1000 /\ 1 <= 20 /\
  map snd (tail (fetches (trace (purge_history Archive.get Archive.post "p" None
                                   20 20 1000 false (Archive.fresh 55)))))
    = [20; 15] /\
  exists chunk_num remains,
    divmod (deletions_of 55 20 1000) 20 = Return (chunk_num, remains) /\
    chunk_num * 20 + remains = deletions_of 55 20 1000 /\
    0 <= remains < 20.
Proof.
  split; [reflexivity|]. split; [vm_compute; discriminate|]. split; [lia|].
  split; [vm_compute; reflexivity|].
  destruct (chunk_partition Archive.get Archive.post "p" None 20 20 1000 false
              (Archive.fresh 55) {| total_attr := 55; event_ids := [] |} eq_refl
              ltac:(vm_compute; discriminate) ltac:(lia))
    as (chunk_num & remains & H1 & H2 & H3 & _).
  now exists chunk_num, remains.
Defined.

(** C8, as stated, fails: a negative [max_delete_size] is accepted and
    gives a negative number of deletions. *)
Lemma plan_invariant_negative_cap :
  ~ (0 <= deletions_of 10 0 (-5) /\ keep_clamped 10 0 <= 10).
Proof. unfold deletions_of, keep_clamped. lia. Qed.

(** C8, amended. For all integers the clamped keep count is at most
    [total], and the number of deletions is not negative exactly when
    [max_delete_size] is not negative. *)
Theorem plan_invariant (total keep_history_size max_delete_size : Z) :
  keep_clamped total keep_history_size <= total /\
  (0 <= deletions_of total keep_history_size max_delete_size <-> 0 <= max_delete_size).
Proof. unfold deletions_of, keep_clamped. lia. Qed.

(** ** Nothing to delete *)

(** C7, as stated, fails: with 10 executions, 20 to keep, a cap of -5 and
    chunks of 3, [divmod(-5, 3)] is [(-2, 1)]; the loop is skipped, the
    remainder is 1, and the function asks for the window of one record at
    offset 9 and deletes the oldest execution. *)
Lemma no_eligible_history_negative_cap :
  ~ ((10 <= 20 \/ -5 = 0) ->
     posts (trace (Archive.run (Archive.fresh 10) 20 3 (-5) false)) = [] /\
     fetches (trace (Archive.run (Archive.fresh 10) 20 3 (-5) false)) = [(0, 0)] /\
     result (Archive.run (Archive.fresh 10) 20 3 (-5) false) = Return 0).
Proof.
  assert (Hrun :
    fetches (trace (Archive.run (Archive.fresh 10) 20 3 (-5) false)) = [(0, 0); (9, 1)] /\
    posts (trace (Archive.run (Archive.fresh 10) 20 3 (-5) false)) = [["1"]] /\
    result (Archive.run (Archive.fresh 10) 20 3 (-5) false) = Return 1).
  { repeat split. }
  destruct Hrun as (Hf & _ & _).
  intros H. destruct H as (_ & H & _); [left; lia|].
  rewrite Hf in H. discriminate H.
Qed.

(** C7, amended. When the cap is not negative and either [total] is at
    most the keep count or the cap is zero, no delete request and no
    history request beyond the count query is sent; the function returns
    0 unless the chunk size is zero, in which case [divmod] raises. *)
Theorem no_eligible_history {remote : Type}
    (get : history_request -> remote -> outcome history_doc * remote)
    (post : list string -> remote -> outcome delete_doc * remote)
    (project : string) (job_filter : option string)
    (keep_history_size chunk_size max_delete_size : Z) (dry_run : bool)
    (s : remote) (doc : history_doc) :
  fst (get (count_request project job_filter) s) = Return doc ->
  0 <= max_delete_size ->
  total_attr doc <= keep_history_size \/ max_delete_size = 0 ->
  let x := purge_history get post project job_filter
             keep_history_size chunk_size max_delete_size dry_run s in
  posts (trace x) = [] /\
  fetches (trace x) = [(0, 0)] /\
  result x = (if chunk_size =? 0 then Raise ZeroDivisionError else Return 0).
Proof.
  intros Hdoc Hm Hcase x. subst x.
  assert (Hd : deletions_of (total_attr doc) keep_history_size max_delete_size = 0).
  { unfold deletions_of, keep_clamped. lia. }
  rewrite purge_history_run. cbv zeta. rewrite Hdoc, Hd.
  destruct (chunk_size =? 0); [now repeat split|].
  rewrite Zdiv_0_l, Zmod_0_l.
  now repeat split.
Qed.

Lemma no_eligible_history_witness :
  fst (Archive.get (count_request "p" None) (Archive.fresh 3))
    = Return {| total_attr := 3; event_ids := [] |} /\
  0 <= 7 /\
  (3 <= 5 \/ 7 = 0) /\
  posts (trace (Archive.run (Archive.fresh 3) 5 2 7 false)) = [] /\
  fetches (trace (Archive.run (Archive.fresh 3) 5 2 7 false)) = [(0, 0)] /\
  result (Archive.run (Archive.fresh 3) 5 2 7 false) = Return 0.
Proof.
  split; [reflexivity|]. split; [lia|]. split; [left; lia|].
  apply (no_eligible_history Archive.get Archive.post "p" None 5 2 7 false
           (Archive.fresh 3) {| total_attr := 3; event_ids := [] |});
    [reflexivity | lia | left; simpl; lia].
Defined.

(** ** Dry run *)

(** C4. With [dry_run] set, whatever the server and the other arguments,
    no [executions/delete] request is sent and the only value that
    [purge_history] can return is 0; it does return 0 when the server
    answers the history requests and the chunk size is not zero, while the
    batches that would be deleted are still written to the log. *)
Theorem dry_run_deletes_nothing {remote : Type}
    (get : history_request -> remote -> outcome history_doc * remote)
    (post : list string -> remote -> outcome delete_doc * remote)
    (project : string) (job_filter : option string)
    (keep_history_size chunk_size max_delete_size : Z) (s : remote) :
  let x := purge_history get post project job_filter
             keep_history_size chunk_size max_delete_size true s in
  posts (trace x) = [] /\
  (result x = Return 0 \/ exists e, result x = Raise e) /\
  (get_ok get -> chunk_size <> 0 -> result x = Return 0) /\
  exists chunks rest,
    tail (fetched (trace x)) = chunks ++ rest /\
    announced (trace x) = map (slice_from (- chunk_size)) chunks ++ rest.
Proof.
  intros x. subst x.
  pose proof (purge_history_dry_posts get post project job_filter
                keep_history_size chunk_size max_delete_size true s eq_refl) as Hp.
  pose proof (purge_history_confirmed get post project job_filter
                keep_history_size chunk_size max_delete_size true s) as Hc.
  rewrite (posts_nil_confirmed _ Hp) in Hc.
  split; [exact Hp|]. split; [|split].
  - destruct (result (purge_history _ _ _ _ _ _ _ _ s)) as [k|e].
    + left. now rewrite (Hc k eq_refl).
    + right. now exists e.
  - intros Hget Hsize.
    destruct (purge_history_returns get post project job_filter
                keep_history_size chunk_size max_delete_size true s Hget
                (or_introl eq_refl) Hsize) as [k Hk].
    rewrite Hk. now rewrite (Hc k Hk).
  - destruct (purge_history_batches get post project job_filter
                keep_history_size chunk_size max_delete_size true s)
      as (chunks & rest & H1 & H2 & _).
    now exists chunks, rest.
Qed.

Lemma dry_run_deletes_nothing_witness :
  posts (trace (Archive.run (Archive.fresh 5) 2 2 10 true)) = [] /\
  result (Archive.run (Archive.fresh 5) 2 2 10 true) = Return 0 /\
  announced (trace (Archive.run (Archive.fresh 5) 2 2 10 true)) = [["2"; "1"]; ["3"]] /\
  Archive.executions (final (Archive.run (Archive.fresh 5) 2 2 10 true))
    = ["5"; "4"; "3"; "2"; "1"].
Proof.
  destruct (dry_run_deletes_nothing Archive.get Archive.post "p" None 2 2 10
              (Archive.fresh 5)) as (Hp & _ & Hr & _).
  split; [exact Hp|]. split; [apply Hr; [exact Archive_get_ok | lia]|].
  split; reflexivity.
Defined.

(** ** Partial failure *)

(** C5. When the server answers a delete request with [allsuccessful]
    false and a count [k], [delete_executions] returns [k] without raising
    and writes the messages to the error log; the loop adds [k] to
    [deleted]; and against a server that answers every request, whether
    all successful or not, [purge_history] goes through the whole plan of
    chunks and remainder: it asks for every planned window, gets the
    answers of all [deletions // chunk_size] turns of the loop and, if
    [deletions % chunk_size > 0], the one for the remainder, posts a delete
    request for each of them (the slice [ids[-chunk_size:]] for a turn of
    the loop, the answer as it came for the remainder), in order, and
    returns the sum of the confirmed counts. *)
Theorem partial_failure_is_not_fatal {remote : Type}
    (get : history_request -> remote -> outcome history_doc * remote)
    (post : list string -> remote -> outcome delete_doc * remote)
    (project : string) (job_filter : option string)
    (keep_history_size chunk_size max_delete_size : Z) :
  (forall ids s doc,
     fst (post ids s) = Return doc ->
     strtobool (allsuccessful doc) = Return false ->
     delete_executions post ids false s
     = (Return (successful_count doc), snd (post ids s),
        [EInfoPurge (length ids) ids; EPost ids (Return doc);
         EError (list_to_set (execution_messages doc))])) /\
  (forall total i st s answer doc,
     let rq := fetch_request project job_filter
                 (total - chunk_size * (i + 1)) chunk_size in
     fst (get rq s) = Return answer ->
     fst (post (slice_from (- chunk_size) (event_ids answer)) (snd (get rq s)))
       = Return doc ->
     strtobool (allsuccessful doc) = Return false ->
     result (chunk_body get post project job_filter total chunk_size false i st s)
     = Return (total - chunk_size * (i + 1), snd st + successful_count doc)) /\
  (forall s doc,
     get_ok get -> post_ok post -> chunk_size <> 0 ->
     fst (get (count_request project job_filter) s) = Return doc ->
     let total := total_attr doc in
     let d := deletions_of total keep_history_size max_delete_size in
     let x := purge_history get post project job_filter
                keep_history_size chunk_size max_delete_size false s in
     result x = Return (confirmed (trace x)) /\
     fetches (trace x)
     = (0, 0) :: planned_fetches total chunk_size (d / chunk_size) (d mod chunk_size) /\
     exists chunks rest,
       tail (fetched (trace x)) = chunks ++ rest /\
       length chunks = Z.to_nat (d / chunk_size) /\
       length rest = (if d mod chunk_size >? 0 then 1 else 0)%nat /\
       posts (trace x) = map (slice_from (- chunk_size)) chunks ++ rest).
Proof.
  split; [|split].
  - intros ids s doc Hp Hs. rewrite delete_executions_run, Hp, Hs. reflexivity.
  - intros total i st s answer doc rq Hg Hp Hs.
    rewrite chunk_body_run. cbv zeta. fold rq. rewrite Hg.
    rewrite delete_executions_run, Hp, Hs. reflexivity.
  - intros s doc Hget Hpost Hc Hdoc total d x. subst x.
    destruct (purge_history_returns get post project job_filter
                keep_history_size chunk_size max_delete_size false s Hget
                (or_intror Hpost) Hc) as [k Hk].
    split; [|split].
    + rewrite Hk. f_equal. now apply purge_history_confirmed.
    + destruct (purge_history_fetches get post project job_filter
                  keep_history_size chunk_size max_delete_size false s doc Hdoc Hc)
        as [_ Hall].
      exact (Hall k Hk).
    + destruct (purge_history_split get post project job_filter false
                  keep_history_size chunk_size max_delete_size s doc Hdoc Hc)
        as (chunks & rest & Hf & Ha & _ & _ & _ & Hlen).
      destruct (Hlen k Hk) as [Hn Hr].
      exists chunks, rest. repeat split; try assumption.
      rewrite <- Ha.
      apply (purge_history_posts get post project job_filter keep_history_size
               chunk_size max_delete_size false s).
Qed.

(** Five executions of which the oldest is protected, two to keep: the
    chunk of the two oldest is confirmed for one only, and the remainder
    is still asked for and posted. *)
Lemma partial_failure_is_not_fatal_witness :
  result (delete_executions Archive.post ["2"; "1"] false
            (Archive.guarding 5 ["1"])) = Return 1 /\
  error_lines (trace (delete_executions Archive.post ["2"; "1"] false
                        (Archive.guarding 5 ["1"]))) = 1%nat /\
  result (chunk_body Archive.get Archive.post "p" None 5 2 false 0 (5, 0)
            (Archive.guarding 5 ["1"])) = Return (3, 1) /\
  result (Archive.run (Archive.guarding 5 ["1"]) 2 2 10 false) = Return 2 /\
  fetches (trace (Archive.run (Archive.guarding 5 ["1"]) 2 2 10 false))
    = [(0, 0); (3, 2); (2, 1)] /\
  posts (trace (Archive.run (Archive.guarding 5 ["1"]) 2 2 10 false))
    = [["2"; "1"]; ["3"]].
Proof.
  destruct (partial_failure_is_not_fatal Archive.get Archive.post "p" None 2 2 10)
    as (H1 & H2 & H3).
  pose proof (H1 ["2"; "1"] (Archive.guarding 5 ["1"])
                {| successful_count := 1; allsuccessful := "false";
                   execution_messages :=
                     ["Unauthorized: Delete execution in project xxx"] |}
                eq_refl eq_refl) as Hdel.
  pose proof (H3 (Archive.guarding 5 ["1"]) {| total_attr := 5; event_ids := [] |}
                Archive_get_ok Archive_post_ok ltac:(lia) eq_refl) as (Hr & Hf & _).
  split; [|split; [|split; [|split; [|split]]]].
  - rewrite Hdel. reflexivity.
  - rewrite Hdel. reflexivity.
  - exact (H2 5 0 (5, 0) (Archive.guarding 5 ["1"])
             {| total_attr := 5; event_ids := ["2"; "1"] |}
             {| successful_count := 1; allsuccessful := "false";
                execution_messages :=
                  ["Unauthorized: Delete execution in project xxx"] |}
             eq_refl eq_refl eq_refl).
  - unfold Archive.run. rewrite Hr. reflexivity.
  - exact Hf.
  - reflexivity.
Defined.

(** ** Order of the chunks *)

Lemma nth_chunk_offsets total chunk_size n i :
  0 <= i < n ->
  nth (Z.to_nat i) (chunk_offsets total chunk_size n) 0 = total - chunk_size * (i + 1).
Proof.
  intros Hi. unfold chunk_offsets, range.
  rewrite (nth_indep _ 0 ((fun j => total - chunk_size * (j + 1)) 0))
    by (rewrite !length_map, length_seq; lia).
  rewrite (map_nth (fun j => total - chunk_size * (j + 1))).
  rewrite (nth_indep _ 0 (Z.of_nat 0)) by (rewrite length_map, length_seq; lia).
  rewrite (map_nth Z.of_nat), seq_nth by lia.
  f_equal. f_equal. lia.
Qed.

(** C2, as stated, fails: in the scenario the offsets are not used in the
    order 20, 40, 60, 80. *)
Lemma chunk_order_scenario :
  map fst (tail (fetches (trace (Archive.run (Archive.fresh 100) 20 20 1000 false))))
  <> [20; 40; 60; 80].
Proof. intros H. vm_compute in H. discriminate H. Qed.

(** C2, amended. The full chunks are processed from the oldest record
    towards the most recent eligible one: the [i]-th turn of the loop asks
    for the window at offset [total - chunk_size * (i + 1)], the requests
    of a run follow that plan in order, and a run that returns has sent
    all of them.  For [total = 100], [keepCount = 20], [maxDelete = 1000],
    [chunkSize = 20] the offsets are 80, 60, 40, 20 in that order, every
    window has 20 ids, all are deleted and the 20 most recent records
    remain. *)
Theorem chunks_oldest_first {remote : Type}
    (get : history_request -> remote -> outcome history_doc * remote)
    (post : list string -> remote -> outcome delete_doc * remote)
    (project : string) (job_filter : option string)
    (keep_history_size chunk_size max_delete_size : Z) (dry_run : bool)
    (s : remote) (doc : history_doc) :
  fst (get (count_request project job_filter) s) = Return doc ->
  chunk_size <> 0 ->
  let total := total_attr doc in
  let d := deletions_of total keep_history_size max_delete_size in
  let plan := planned_fetches total chunk_size (d / chunk_size) (d mod chunk_size) in
  let x := purge_history get post project job_filter
             keep_history_size chunk_size max_delete_size dry_run s in
  let y := Archive.run (Archive.fresh 100) 20 20 1000 false in
  (forall i, 0 <= i < d / chunk_size ->
     nth (Z.to_nat i) (chunk_offsets total chunk_size (d / chunk_size)) 0
     = total - chunk_size * (i + 1)) /\
  (exists k, (0, 0) :: plan = fetches (trace x) ++ k) /\
  (forall k, result x = Return k -> fetches (trace x) = (0, 0) :: plan) /\
  result y = Return 80 /\
  fetches (trace y) = [(0, 0); (80, 20); (60, 20); (40, 20); (20, 20)] /\
  fetched_sizes (trace y) = [0; 20; 20; 20; 20]%nat /\
  posts (trace y) = tail (fetched (trace y)) /\
  Archive.executions (final y) = firstn 20 (Archive.history 100).
Proof.
  intros Hdoc Hc total d plan x y.
  split; [intros i Hi; now apply nth_chunk_offsets|].
  destruct (purge_history_fetches get post project job_filter keep_history_size
              chunk_size max_delete_size dry_run s doc Hdoc Hc) as [Hpre Hall].
  split; [exact Hpre|]. split; [exact Hall|].
  subst y. vm_compute. repeat split.
Qed.

Lemma chunks_oldest_first_witness :
  fst (Archive.get (count_request "p" None) (Archive.fresh 5))
    = Return {| total_attr := 5; event_ids := [] |} /\
  2 <> 0 /\
  fetches (trace (Archive.run (Archive.fresh 5) 1 2 10 false))
    = [(0, 0); (3, 2); (1, 2)].
Proof.
  split; [reflexivity|]. split; [lia|].
  destruct (chunks_oldest_first Archive.get Archive.post "p" None 1 2 10 false
              (Archive.fresh 5) {| total_attr := 5; event_ids := [] |}
              eq_refl ltac:(lia)) as (_ & _ & Hall & _).
  exact (Hall 4 eq_refl).
Defined.

(** ** The remainder *)

(** C3, as stated, fails: in the scenario the full chunk is not asked for
    at offset 15 and the remainder not at offset 0. *)
Lemma remainder_scenario :
  tail (fetches (trace (Archive.run (Archive.fresh 55) 20 20 1000 false)))
  <> [(15, 20); (0, 15)].
Proof. intros H. vm_compute in H. discriminate H. Qed.

(** C3, amended. For arguments that are not negative and a chunk size of
    at least 1, a run that returns with [remains > 0] has sent, after the
    requests of the full chunks, exactly one more request, for [remains]
    records at offset [total - deletions], and has handed its answer to
    [delete_executions] as it came; a server that lists a history of
    [total] records answers it with exactly [remains] ids, those that
    follow the first [total - deletions] records.  For [total = 55],
    [keepCount = 20], [maxDelete = 1000], [chunkSize = 20] there are 35
    deletions: one full chunk at offset 35, then the remainder of 15 at
    offset 20, and 35 records are deleted when every deletion succeeds. *)
Theorem remainder_batch {remote : Type}
    (get : history_request -> remote -> outcome history_doc * remote)
    (post : list string -> remote -> outcome delete_doc * remote)
    (project : string) (job_filter : option string)
    (keep_history_size chunk_size max_delete_size : Z) (dry_run : bool)
    (s : remote) (doc : history_doc) (k : Z) :
  fst (get (count_request project job_filter) s) = Return doc ->
  0 <= total_attr doc -> 0 <= keep_history_size -> 0 <= max_delete_size ->
  1 <= chunk_size ->
  let total := total_attr doc in
  let d := deletions_of total keep_history_size max_delete_size in
  let remains := d mod chunk_size in
  let x := purge_history get post project job_filter
             keep_history_size chunk_size max_delete_size dry_run s in
  let y := Archive.run (Archive.fresh 55) 20 20 1000 false in
  0 < remains ->
  result x = Return k ->
  fetches (trace x)
  = (0, 0) :: map (fun o => (o, chunk_size))
                (chunk_offsets total chunk_size (d / chunk_size))
    ++ [(total - d, remains)] /\
  (exists chunks answer s1,
     fst (get (fetch_request project job_filter (total - d) remains) s1)
       = Return answer /\
     tail (fetched (trace x)) = chunks ++ [event_ids answer] /\
     announced (trace x) = map (slice_from (- chunk_size)) chunks ++ [event_ids answer] /\
     forall snap, answers_from snap get -> Z.of_nat (length snap) = total ->
       event_ids answer = Archive.window (total - d) remains snap /\
       Z.of_nat (length (event_ids answer)) = remains) /\
  deletions_of 55 20 1000 = 35 /\
  result y = Return 35 /\
  fetches (trace y) = [(0, 0); (35, 20); (20, 15)] /\
  fetched_sizes (trace y) = [0; 20; 15]%nat /\
  posts (trace y) = tail (fetched (trace y)) /\
  Archive.executions (final y) = firstn 20 (Archive.history 55).
Proof.
  intros Hdoc Ht Hk Hm Hc total d remains x y Hr Hres.
  destruct (plan_arith total keep_history_size max_delete_size chunk_size Ht Hk Hm Hc)
    as (Hd & Hdiv & Hmod & Hn).
  fold d in Hd, Hdiv, Hmod, Hn. fold remains in Hdiv, Hmod.
  assert (Hexit : exit_offset total chunk_size (d / chunk_size) - remains = total - d).
  { rewrite exit_offset_nonneg by exact Hn. lia. }
  split; [|split].
  - destruct (purge_history_fetches get post project job_filter keep_history_size
                chunk_size max_delete_size dry_run s doc Hdoc ltac:(lia)) as [_ Hall].
    cbv zeta in Hall. fold total d remains x in Hall.
    rewrite (Hall k Hres). unfold planned_fetches.
    destruct (Z.gtb_spec remains 0) as [_|]; [|lia]. now rewrite Hexit.
  - destruct (purge_history_remainder get post project job_filter keep_history_size
                chunk_size max_delete_size dry_run s doc k Hdoc ltac:(lia) Hr Hres)
      as (chunks & answer & s1 & Hg & Hf & Ha).
    fold total d remains x in Hg, Hf, Ha. rewrite Hexit in Hg.
    exists chunks, answer, s1.
    split; [exact Hg|]. split; [exact Hf|]. split; [exact Ha|].
    intros snap Hsnap Hlen. rewrite (Hsnap _ _ _ Hg). simpl.
    split; [reflexivity|]. apply length_window; lia.
  - subst y. vm_compute. repeat split.
Qed.

Lemma remainder_batch_witness :
  fst (Archive.get (count_request "p" None) (Archive.fresh 5))
    = Return {| total_attr := 5; event_ids := [] |} /\
  0 <= 5 /\ 0 <= 2 /\ 0 <= 10 /\ 1 <= 2 /\
  0 < deletions_of 5 2 10 mod 2 /\
  result (Archive.run (Archive.fresh 5) 2 2 10 false) = Return 3 /\
  fetches (trace (Archive.run (Archive.fresh 5) 2 2 10 false))
    = [(0, 0); (3, 2); (2, 1)].
Proof.
  split; [reflexivity|]. do 4 (split; [lia|]).
  split; [reflexivity|]. split; [reflexivity|].
  destruct (remainder_batch Archive.get Archive.post "p" None 2 2 10 false
              (Archive.fresh 5) {| total_attr := 5; event_ids := [] |} 3
              eq_refl ltac:(simpl; lia) ltac:(lia) ltac:(lia) ltac:(lia)
              eq_refl eq_refl) as (Hf & _).
  exact Hf.
Defined.

(** ** The records that are kept *)

(** C9. For [total], [keep_history_size], [max_delete_size] that are not
    negative and a chunk size of at least 1, every window that is asked
    for after the count query, for a full chunk or for the remainder,
    starts at an offset that is at least [min(total, keepCount)] and not
    negative; so against a server that lists one fixed history without
    repetition, no batch handed to [delete_executions] contains one of
    its [min(total, keepCount)] most recent records. *)
Theorem kept_records_never_fetched {remote : Type}
    (get : history_request -> remote -> outcome history_doc * remote)
    (post : list string -> remote -> outcome delete_doc * remote)
    (project : string) (job_filter : option string)
    (keep_history_size chunk_size max_delete_size : Z) (dry_run : bool)
    (s : remote) (doc : history_doc) :
  fst (get (count_request project job_filter) s) = Return doc ->
  0 <= total_attr doc -> 0 <= keep_history_size -> 0 <= max_delete_size ->
  1 <= chunk_size ->
  let total := total_attr doc in
  let x := purge_history get post project job_filter
             keep_history_size chunk_size max_delete_size dry_run s in
  Forall (fun om => Z.min total keep_history_size <= fst om /\ 0 <= fst om)
    (tail (fetches (trace x))) /\
  forall snap, answers_from snap get -> List.NoDup snap ->
    forall batch id, In batch (announced (trace x)) -> In id batch ->
      ~ In id (firstn (Z.to_nat (Z.min total keep_history_size)) snap).
Proof.
  intros Hdoc Ht Hk Hm Hc total x. split.
  - now apply purge_history_offsets.
  - intros snap Hsnap Hnd batch id Hb Hid.
    pose proof (purge_history_batches_in get post project job_filter keep_history_size
                  chunk_size max_delete_size dry_run s doc snap Hsnap Hdoc Ht Hk Hm Hc)
      as Hin.
    unfold batches_in in Hin. rewrite List.Forall_forall in Hin.
    apply skipn_not_in_firstn; [exact Hnd|]. exact (Hin batch Hb id Hid).
Qed.

Lemma Mirror_answers_from snap : answers_from snap (Mirror.get snap).
Proof. intros rq s doc [= <-]. reflexivity. Qed.

Lemma kept_records_never_fetched_witness :
  fst (Mirror.get (Archive.history 5) (count_request "p" None) tt)
    = Return {| total_attr := 5; event_ids := [] |} /\
  0 <= 5 /\ 0 <= 2 /\ 0 <= 10 /\ 1 <= 2 /\
  Forall (fun om => Z.min 5 2 <= fst om /\ 0 <= fst om)
    (tail (fetches (trace (purge_history (Mirror.get (Archive.history 5)) Mirror.post
                             "p" None 2 2 10 false tt)))) /\
  forall batch id,
    In batch (announced (trace (purge_history (Mirror.get (Archive.history 5))
                                  Mirror.post "p" None 2 2 10 false tt))) ->
    In id batch -> ~ In id ["5"; "4"].
Proof.
  split; [reflexivity|]. do 4 (split; [lia|]).
  destruct (kept_records_never_fetched (Mirror.get (Archive.history 5)) Mirror.post
              "p" None 2 2 10 false tt {| total_attr := 5; event_ids := [] |}
              eq_refl ltac:(simpl; lia) ltac:(lia) ltac:(lia) ltac:(lia))
    as [Hoff Hkept].
  split; [exact Hoff|].
  apply (Hkept (Archive.history 5) (Mirror_answers_from (Archive.history 5))).
  repeat constructor; simpl; intuition discriminate.
Defined.

(** ** Size of the batches *)

(** C10, as stated, fails: a negative chunk size with a negative cap is
    accepted, the loop is entered ([divmod(-40, -20)] is [(2, 0)]), the
    slice [ids[20:]] drops the first 20 ids instead of keeping the last
    ones, and a batch, even an empty one, has more than [chunk_size]
    ids. *)
Lemma full_chunk_negative_size :
  ~ Forall (fun batch => Z.of_nat (length batch) <= -20)
      (announced (trace (Archive.run (Archive.fresh 100) 0 (-20) (-40) false))).
Proof.
  intros H. vm_compute in H. inversion H as [|b bs Hb _]. apply Hb. reflexivity.
Qed.

(** C10, amended. For a chunk size of at least 1, every batch that the
    loop over the full chunks hands to [delete_executions] is the slice
    [ids[-chunk_size:]] of the answer to its request: its last
    [min(chunk_size, len(ids))] ids, so at most [chunk_size] of them
    whatever the server sent; the batch of the remainder, of which there
    is at most one, is the answer as it came.  The answers of the loop
    are the first [deletions // chunk_size] answers after the count query
    (fewer when the run is cut short), and the answer for the remainder
    can only be the one after all of these, which fixes for every answer
    whether its batch is sliced. *)
Theorem full_chunk_batches_truncated {remote : Type}
    (get : history_request -> remote -> outcome history_doc * remote)
    (post : list string -> remote -> outcome delete_doc * remote)
    (project : string) (job_filter : option string)
    (keep_history_size chunk_size max_delete_size : Z) (dry_run : bool)
    (s : remote) :
  0 < chunk_size ->
  let x := purge_history get post project job_filter
             keep_history_size chunk_size max_delete_size dry_run s in
  exists chunks rest,
    tail (fetched (trace x)) = chunks ++ rest /\
    announced (trace x) = map (slice_from (- chunk_size)) chunks ++ rest /\
    (length rest <= 1)%nat /\
    Forall (fun ids =>
              Z.of_nat (length (slice_from (- chunk_size) ids))
                = Z.min chunk_size (Z.of_nat (length ids)) /\
              Z.of_nat (length (slice_from (- chunk_size) ids)) <= chunk_size /\
              exists dropped, ids = dropped ++ slice_from (- chunk_size) ids)
      chunks /\
    forall doc, fst (get (count_request project job_filter) s) = Return doc ->
      let total := total_attr doc in
      let d := deletions_of total keep_history_size max_delete_size in
      (length chunks <= Z.to_nat (d / chunk_size))%nat /\
      (rest <> [] -> length chunks = Z.to_nat (d / chunk_size) /\ 0 < d mod chunk_size) /\
      (forall k, result x = Return k ->
         length chunks = Z.to_nat (d / chunk_size) /\
         length rest = (if d mod chunk_size >? 0 then 1 else 0)%nat) /\
      exists k,
        repeat chunk_size (Z.to_nat (d / chunk_size))
        ++ (if d mod chunk_size >? 0 then [d mod chunk_size] else [])
        = map snd (tail (fetches (trace x))) ++ k.
Proof.
  intros Hc x.
  assert (Hslice : forall chunks : list (list string),
    Forall (fun ids =>
              Z.of_nat (length (slice_from (- chunk_size) ids))
                = Z.min chunk_size (Z.of_nat (length ids)) /\
              Z.of_nat (length (slice_from (- chunk_size) ids)) <= chunk_size /\
              exists dropped, ids = dropped ++ slice_from (- chunk_size) ids)
      chunks).
  { intros chunks. apply List.Forall_forall. intros ids _.
    pose proof (slice_from_last_length chunk_size ids Hc) as Hlen.
    split; [exact Hlen|]. split; [lia|]. now apply slice_from_last_suffix. }
  destruct (fst (get (count_request project job_filter) s)) as [doc|e] eqn:Hdoc.
  - destruct (purge_history_split get post project job_filter dry_run
                keep_history_size chunk_size max_delete_size s doc Hdoc ltac:(lia))
      as (chunks & rest & H1 & H2 & H3 & H4 & H5 & H6).
    destruct (purge_history_windows get post project job_filter dry_run
                keep_history_size chunk_size max_delete_size s doc Hdoc ltac:(lia))
      as [[k Hk] _].
    cbv zeta in Hk.
    exists chunks, rest. fold x in H1, H2, H5, H6, Hk.
    split; [exact H1|]. split; [exact H2|]. split; [exact H4|].
    split; [apply Hslice|].
    intros doc' [= <-] total d. split; [exact H3|]. split; [exact H5|].
    split; [exact H6|].
    exists (map snd k). rewrite <- map_app, <- Hk. symmetry. apply planned_sizes.
  - destruct (purge_history_batches get post project job_filter keep_history_size
                chunk_size max_delete_size dry_run s) as (chunks & rest & H1 & H2 & H3).
    exists chunks, rest. fold x in H1, H2.
    split; [exact H1|]. split; [exact H2|]. split; [exact H3|].
    split; [apply Hslice|]. discriminate.
Qed.

(** Against a server that ignores [max], with five executions to delete
    in chunks of two: the batches of the two chunks are cut down to their
    last two ids, the batch of the remainder is the whole answer. *)
Lemma full_chunk_batches_truncated_witness :
  0 < 2 /\
  fetched (trace (purge_history Archive.get_unbounded Archive.post "p" None
                    0 2 10 true (Archive.fresh 5)))
    = [["5"; "4"; "3"; "2"; "1"]; ["2"; "1"]; ["4"; "3"; "2"; "1"];
       ["5"; "4"; "3"; "2"; "1"]] /\
  announced (trace (purge_history Archive.get_unbounded Archive.post "p" None
                      0 2 10 true (Archive.fresh 5)))
    = [["2"; "1"]; ["2"; "1"]; ["5"; "4"; "3"; "2"; "1"]] /\
  exists chunks rest,
    tail (fetched (trace (purge_history Archive.get_unbounded Archive.post "p" None
                            0 2 10 true (Archive.fresh 5)))) = chunks ++ rest /\
    announced (trace (purge_history Archive.get_unbounded Archive.post "p" None
                        0 2 10 true (Archive.fresh 5)))
      = map (slice_from (- 2)) chunks ++ rest /\
    length chunks = 2%nat /\ length rest = 1%nat.
Proof.
  split; [lia|]. split; [reflexivity|]. split; [reflexivity|].
  destruct (full_chunk_batches_truncated Archive.get_unbounded Archive.post "p" None
              0 2 10 true (Archive.fresh 5) ltac:(lia))
    as (chunks & rest & H1 & H2 & _ & _ & H3).
  destruct (H3 {| total_attr := 5; event_ids := ["5"; "4"; "3"; "2"; "1"] |} eq_refl)
    as (_ & _ & H4 & _).
  destruct (H4 0 eq_refl) as [H5 H6].
  now exists chunks, rest.
Defined.

(** * Further properties *)

(** ** What is posted for deletion *)

(** X1. Whatever the server answers and whatever the arguments, an id that
    [purge_history] posts for deletion was listed by the server in the
    answer to one of the run's requests for a window (never in the answer
    to the count query, and never an id made up locally); when the run is
    not dry, the batches posted are exactly those written to the log as
    purged, in the same order. *)
Theorem posted_ids_were_listed {remote : Type}
    (get : history_request -> remote -> outcome history_doc * remote)
    (post : list string -> remote -> outcome delete_doc * remote)
    (project : string) (job_filter : option string)
    (keep_history_size chunk_size max_delete_size : Z) (dry_run : bool)
    (s : remote) :
  let x := purge_history get post project job_filter
             keep_history_size chunk_size max_delete_size dry_run s in
  posts (trace x) = (if dry_run then [] else announced (trace x)) /\
  forall batch id, In batch (posts (trace x)) -> In id batch ->
    exists ids, In ids (tail (fetched (trace x))) /\ In id ids.
Proof.
  intros x.
  pose proof (purge_history_posts get post project job_filter keep_history_size
                chunk_size max_delete_size dry_run s) as Hposts.
  fold x in Hposts.
  split; [exact Hposts|].
  intros batch id Hb Hid. rewrite Hposts in Hb.
  destruct dry_run; [contradiction|].
  destruct (purge_history_batches get post project job_filter keep_history_size
              chunk_size max_delete_size false s) as (chunks & rest & H1 & H2 & _).
  fold x in H1, H2. rewrite H2 in Hb. rewrite H1.
  apply in_app_or in Hb. destruct Hb as [Hb|Hb].
  - apply in_map_iff in Hb. destruct Hb as (ids & <- & Hids).
    exists ids. split; [apply in_or_app; now left|].
    now apply slice_from_incl in Hid.
  - exists batch. split; [apply in_or_app; now right|exact Hid].
Qed.

(** ** The requests of a run *)

(** X2. Every history request of a run of [purge_history] is for the
    project it was called with, and carries the job filter it was called
    with, an empty filter being sent as no filter at all. *)
Theorem requests_are_for_the_project {remote : Type}
    (get : history_request -> remote -> outcome history_doc * remote)
    (post : list string -> remote -> outcome delete_doc * remote)
    (project : string) (job_filter : option string)
    (keep_history_size chunk_size max_delete_size : Z) (dry_run : bool)
    (s : remote) :
  Forall (request_of project job_filter)
    (trace (purge_history get post project job_filter
              keep_history_size chunk_size max_delete_size dry_run s)) /\
  purge_history get post project (Some "")
    keep_history_size chunk_size max_delete_size dry_run s
  = purge_history get post project None
      keep_history_size chunk_size max_delete_size dry_run s.
Proof.
  split; [|reflexivity].
  apply (purge_history_steps get post project job_filter keep_history_size
           chunk_size max_delete_size dry_run (Forall (request_of project job_filter))).
  - apply closed_Forall.
  - intros offset hmax r. constructor; [|constructor]. now split.
  - intros d t. now repeat constructor.
  - intros ids s'. destruct dry_run.
    + rewrite delete_executions_dry. now repeat constructor.
    + rewrite delete_executions_run.
      destruct (fst (post ids s')) as [doc|e]; [|now repeat constructor].
      destruct (strtobool (allsuccessful doc)) as [[|]|e]; now repeat constructor.
  - now repeat constructor.
Qed.

(** ** Failed requests *)

Lemma quiet_app t1 t2 : quiet t1 -> quiet t2 -> quiet (t1 ++ t2).
Proof. unfold quiet. intros H1 H2. apply Forall_app. now split. Qed.

(** In a list that is quiet up to its last event, an event that is not
    quiet is the last one. *)
Lemma failure_is_last {E : Type} (fail : E -> option exn) (pre post pre' : list E) ev ev' :
  pre ++ ev :: post = pre' ++ [ev'] ->
  Forall (fun e => fail e = None) pre' ->
  fail ev <> None ->
  post = [] /\ ev = ev'.
Proof.
  intros Heq Hq Hev.
  destruct post as [|e post] using rev_ind.
  - apply app_inj_tail in Heq. now destruct Heq.
  - clear IHpost. exfalso.
    change (pre ++ ev :: post ++ [e]) with (pre ++ (ev :: post) ++ [e]) in Heq.
    rewrite app_assoc in Heq. apply app_inj_tail in Heq. destruct Heq as [<- _].
    apply Forall_app in Hq. destruct Hq as [_ Hq].
    inversion Hq; subst. contradiction.
Qed.

Section Settled.

Context {remote : Type}.
Variable get : history_request -> remote -> outcome history_doc * remote.
Variable post : list string -> remote -> outcome delete_doc * remote.

Lemma settled_ret {A : Type} (a : A) (s : remote) : settled (ret a s).
Proof. unfold settled. simpl. constructor. Qed.

Lemma settled_emit e (s : remote) : failure e = None -> settled (emit e s).
Proof. intros He. unfold settled. simpl. now repeat constructor. Qed.

Lemma settled_lift {A : Type} (o : outcome A) (s : remote) : settled (lift o s).
Proof. unfold settled. destruct o; simpl; [|left]; constructor. Qed.

Lemma settled_client_get rq s : settled (client_get get rq s).
Proof.
  rewrite client_get_run. unfold settled. rewrite result_run, trace_run.
  destruct (fst (get rq s)) as [doc|ex] eqn:Er.
  - now repeat constructor.
  - right. exists [], (EGet rq (Raise ex)). repeat split. constructor.
Qed.

Lemma settled_client_post ids s : settled (client_post post ids s).
Proof.
  rewrite client_post_run. unfold settled. rewrite result_run, trace_run.
  destruct (fst (post ids s)) as [doc|ex] eqn:Er.
  - now repeat constructor.
  - right. exists [], (EPost ids (Raise ex)). repeat split. constructor.
Qed.

Lemma settled_bind {A B : Type} (m : M remote A) (f : A -> M remote B) s :
  settled (m s) -> (forall a s', settled (f a s')) -> settled (bind m f s).
Proof.
  intros Hm Hf. rewrite bind_run. unfold settled in Hm.
  destruct (result (m s)) as [a|ex] eqn:Er.
  - specialize (Hf a (final (m s))). unfold settled in *.
    rewrite result_run, trace_run.
    destruct (result (f a (final (m s)))) as [b|ex].
    + now apply quiet_app.
    + destruct Hf as [Hq|(pre & ev & Ht & Hq & Hev)].
      * left. now apply quiet_app.
      * right. exists (trace (m s) ++ pre), ev. rewrite Ht, app_assoc.
        repeat split; [now apply quiet_app|exact Hev].
  - unfold settled. rewrite result_run, trace_run. exact Hm.
Qed.

Lemma settled_for_each {A S : Type} (l : list A) (body : A -> S -> M remote S) :
  (forall x st s, settled (body x st s)) ->
  forall st s, settled (for_each l body st s).
Proof.
  intros Hbody. induction l as [|x l IH]; intros st s.
  - apply settled_ret.
  - change (for_each (x :: l) body st s) with (bind (body x st) (for_each l body) s).
    apply settled_bind; [apply Hbody|]. intros st' s'. apply IH.
Qed.

Lemma settled_get_execution_ids project job_filter offset hmax s :
  settled (get_execution_ids get project job_filter offset hmax s).
Proof.
  unfold get_execution_ids, search_history.
  apply settled_bind; [apply settled_client_get|]. intros. apply settled_ret.
Qed.

Lemma settled_delete_executions ids dry_run s :
  settled (delete_executions post ids dry_run s).
Proof.
  unfold delete_executions.
  apply settled_bind; [now apply settled_emit|]. intros _ s1.
  destruct dry_run; simpl; [apply settled_ret|].
  apply settled_bind; [apply settled_client_post|]. intros fs s2.
  apply settled_bind; [apply settled_lift|]. intros [|] s3; [apply settled_ret|].
  apply settled_bind; [now apply settled_emit|]. intros. apply settled_ret.
Qed.

Lemma settled_purge_history project job_filter
    keep_history_size chunk_size max_delete_size dry_run s :
  settled (purge_history get post project job_filter
             keep_history_size chunk_size max_delete_size dry_run s).
Proof.
  unfold purge_history, get_history_total, search_history.
  apply settled_bind.
  { apply settled_bind; [apply settled_client_get|]. intros. apply settled_ret. }
  intros total s1.
  apply settled_bind; [now apply settled_emit|]. intros _ s2.
  apply settled_bind; [apply settled_lift|]. intros dm s3.
  apply settled_bind.
  { apply settled_for_each. intros i st s4. unfold chunk_body.
    apply settled_bind; [apply settled_get_execution_ids|]. intros ids s5.
    apply settled_bind; [apply settled_delete_executions|]. intros n s6.
    apply settled_bind; [now apply settled_emit|]. intros. apply settled_ret. }
  intros st s4. destruct (snd dm >? 0); [|apply settled_ret].
  apply settled_bind; [apply settled_get_execution_ids|]. intros ids s5.
  apply settled_bind; [apply settled_delete_executions|]. intros. apply settled_ret.
Qed.

End Settled.

(** X3. Nothing is retried and nothing follows a failure: in a run of
    [purge_history] a request that raises (in [Client.get] or
    [Client.post]: no answer, or [raise_for_status] on a 4xx or 5xx
    status; or in the lines that read its answer) is the last event, and
    its exception is the outcome of the run.  What was deleted before
    stays deleted. *)
Theorem failed_request_ends_the_run {remote : Type}
    (get : history_request -> remote -> outcome history_doc * remote)
    (post : list string -> remote -> outcome delete_doc * remote)
    (project : string) (job_filter : option string)
    (keep_history_size chunk_size max_delete_size : Z) (dry_run : bool)
    (s : remote) (before after : list event) (ev : event) (ex : exn) :
  let x := purge_history get post project job_filter
             keep_history_size chunk_size max_delete_size dry_run s in
  trace x = before ++ ev :: after ->
  failure ev = Some ex ->
  after = [] /\ result x = Raise ex.
Proof.
  intros x Ht Hev.
  pose proof (settled_purge_history get post project job_filter keep_history_size
                chunk_size max_delete_size dry_run s) as Hs.
  fold x in Hs. unfold settled in Hs.
  assert (Hnot : ~ quiet (trace x)).
  { intros Hq. rewrite Ht in Hq. apply Forall_app in Hq. destruct Hq as [_ Hq].
    inversion Hq; subst. congruence. }
  destruct (result x) as [k|ex']; [contradiction|].
  destruct Hs as [Hq|(pre & ev' & Ht' & Hq & Hev')]; [contradiction|].
  rewrite Ht in Ht'.
  destruct (failure_is_last failure before after pre ev ev' Ht' Hq ltac:(congruence))
    as [-> <-].
  split; [reflexivity|]. congruence.
Qed.

(** The server goes down after the count query, the first window and the
    first delete request: the second window is never answered, and the
    two oldest executions are gone. *)
Lemma failed_request_ends_the_run_witness :
  trace (purge_history Flaky.get Flaky.post "p" None 1 2 10 false
           (3%nat, Archive.fresh 5))
  = [EGet (count_request "p" None) (Return {| total_attr := 5; event_ids := [] |});
     EInfoPlan 4 5;
     EGet (fetch_request "p" None 3 2) (Return {| total_attr := 5; event_ids := ["2"; "1"] |});
     EInfoPurge 2 ["2"; "1"];
     EPost ["2"; "1"] (Return {| successful_count := 2; allsuccessful := "true";
                                 execution_messages := [] |});
     ESleep]
    ++ EGet (fetch_request "p" None 1 2) (Raise (HTTPError 503)) :: [] /\
  failure (EGet (fetch_request "p" None 1 2) (Raise (HTTPError 503)))
    = Some (HTTPError 503) /\
  result (purge_history Flaky.get Flaky.post "p" None 1 2 10 false
            (3%nat, Archive.fresh 5)) = Raise (HTTPError 503) /\
  Archive.executions (snd (final (purge_history Flaky.get Flaky.post "p" None 1 2 10
                                    false (3%nat, Archive.fresh 5))))
    = ["5"; "4"; "3"].
Proof.
  assert (Ht :
    trace (purge_history Flaky.get Flaky.post "p" None 1 2 10 false
             (3%nat, Archive.fresh 5))
    = [EGet (count_request "p" None) (Return {| total_attr := 5; event_ids := [] |});
       EInfoPlan 4 5;
       EGet (fetch_request "p" None 3 2)
         (Return {| total_attr := 5; event_ids := ["2"; "1"] |});
       EInfoPurge 2 ["2"; "1"];
       EPost ["2"; "1"] (Return {| successful_count := 2; allsuccessful := "true";
                                   execution_messages := [] |});
       ESleep]
      ++ EGet (fetch_request "p" None 1 2) (Raise (HTTPError 503)) :: [])
    by reflexivity.
  split; [exact Ht|]. split; [reflexivity|]. split; [|reflexivity].
  apply (failed_request_ends_the_run Flaky.get Flaky.post "p" None 1 2 10 false
           (3%nat, Archive.fresh 5) _ [] _ (HTTPError 503) Ht eq_refl).
Defined.

(** ** A chunk size of zero *)

(** X4. With a chunk size of 0 nothing is deleted and no window is asked
    for: after the count query, if it is answered, the plan is written to
    the log and [divmod] raises [ZeroDivisionError]. *)
Theorem zero_chunk_size_raises {remote : Type}
    (get : history_request -> remote -> outcome history_doc * remote)
    (post : list string -> remote -> outcome delete_doc * remote)
    (project : string) (job_filter : option string)
    (keep_history_size max_delete_size : Z) (dry_run : bool)
    (s : remote) (doc : history_doc) :
  fst (get (count_request project job_filter) s) = Return doc ->
  purge_history get post project job_filter keep_history_size 0 max_delete_size dry_run s
  = (Raise ZeroDivisionError, snd (get (count_request project job_filter) s),
     [EGet (count_request project job_filter) (Return doc);
      EInfoPlan (deletions_of (total_attr doc) keep_history_size max_delete_size)
        (total_attr doc)]).
Proof.
  intros Hdoc. rewrite purge_history_run. cbv zeta. now rewrite Hdoc.
Qed.

Lemma zero_chunk_size_raises_witness :
  fst (Archive.get (count_request "p" None) (Archive.fresh 5))
    = Return {| total_attr := 5; event_ids := [] |} /\
  result (Archive.run (Archive.fresh 5) 2 0 10 false) = Raise ZeroDivisionError /\
  Archive.executions (final (Archive.run (Archive.fresh 5) 2 0 10 false))
    = Archive.history 5.
Proof.
  split; [reflexivity|].
  unfold Archive.run.
  rewrite (zero_chunk_size_raises Archive.get Archive.post "p" None 2 10 false
             (Archive.fresh 5) {| total_attr := 5; event_ids := [] |} eq_refl).
  split; reflexivity.
Defined.

(** ** A server that honours [max] *)

Lemma length_fetched_le t : (length (fetched t) <= length (fetches t))%nat.
Proof.
  induction t as [|e t IH]; simpl; [lia|].
  destruct e as [rq [doc|ex] | | | | | ]; simpl; lia.
Qed.

Lemma length_concat_le (c : Z) (bs : list (list string)) :
  Forall (fun b => Z.of_nat (length b) <= c) bs ->
  Z.of_nat (length (concat bs)) <= c * Z.of_nat (length bs).
Proof.
  induction 1 as [|b bs Hb _ IH]; simpl; [lia|].
  rewrite length_app. lia.
Qed.

Lemma slice_from_short {A : Type} (k : Z) (l : list A) :
  0 < k -> Z.of_nat (length l) <= k -> slice_from (- k) l = l.
Proof.
  intros Hk Hl. unfold slice_from.
  destruct (Z.ltb_spec (- k) 0) as [_|]; [|lia].
  now replace (Z.to_nat (Z.max (Z.of_nat (length l) + - k) 0)) with 0%nat by lia.
Qed.

Lemma map_slice_from_short (k : Z) (bs : list (list string)) :
  0 < k -> Forall (fun b => Z.of_nat (length b) <= k) bs ->
  map (slice_from (- k)) bs = bs.
Proof.
  intros Hk. induction 1 as [|b bs Hb _ IH]; simpl; [reflexivity|].
  now rewrite IH, slice_from_short.
Qed.

Section Honest.

Context {remote : Type}.
Variable get : history_request -> remote -> outcome history_doc * remote.
Variable post : list string -> remote -> outcome delete_doc * remote.
Variables (project : string) (job_filter : option string) (dry_run : bool).

Lemma chunk_body_fetched total chunk_size i st s :
  honours_max get -> 0 < chunk_size ->
  Forall (fun ids => Z.of_nat (length ids) <= chunk_size)
    (fetched (trace (chunk_body get post project job_filter total chunk_size
                       dry_run i st s))).
Proof.
  intros Hmax Hc. rewrite chunk_body_run. cbv zeta.
  destruct (fst (get _ s)) as [doc|e] eqn:Eg; [|constructor].
  pose proof (Hmax _ _ _ Eg) as Hlen. simpl in Hlen.
  pose proof (delete_executions_fetches post dry_run
                (slice_from (- chunk_size) (event_ids doc))
                (snd (get (fetch_request project job_filter
                             (total - chunk_size * (i + 1)) chunk_size) s)))
    as (_ & Hd & _).
  destruct (result (delete_executions post _ dry_run _)) as [k|e];
    rewrite trace_run;
    change (EGet ?rq ?r :: ?t) with ([EGet rq r] ++ t);
    rewrite ?fetched_app, Hd; simpl; repeat constructor; lia.
Qed.

Lemma for_each_fetched total chunk_size l st s :
  honours_max get -> 0 < chunk_size ->
  Forall (fun ids => Z.of_nat (length ids) <= chunk_size)
    (fetched (trace (for_each l (chunk_body get post project job_filter total
                                   chunk_size dry_run) st s))).
Proof.
  intros Hmax Hc.
  apply (always_for_each
           (fun t => Forall (fun ids => Z.of_nat (length ids) <= chunk_size) (fetched t))).
  - split; [constructor|]. intros t1 t2 H1 H2. rewrite fetched_app.
    apply Forall_app. now split.
  - intros i st' _ s'. now apply chunk_body_fetched.
Qed.

Lemma purge_rest_fetched remains st s :
  honours_max get ->
  Forall (fun ids => Z.of_nat (length ids) <= Z.max 0 remains)
    (fetched (trace (purge_rest get post project job_filter dry_run remains st s))).
Proof.
  intros Hmax.
  destruct (purge_rest_facts get post project job_filter dry_run remains st s)
    as (_ & <- & _).
  destruct (purge_rest_batch get post project job_filter dry_run remains st s)
    as [->|(doc & _ & Hg & ->)]; [constructor|].
  repeat constructor. apply (Hmax _ _ _ Hg).
Qed.

End Honest.

Section Parts.

Context {remote : Type}.
Variable get : history_request -> remote -> outcome history_doc * remote.
Variable post : list string -> remote -> outcome delete_doc * remote.
Variables (project : string) (job_filter : option string).
Variables (keep_history_size chunk_size max_delete_size : Z) (dry_run : bool).

(** The events of a run: the count query, the plan, the loop, the
    remainder. *)
Lemma purge_history_parts s :
  let x := purge_history get post project job_filter
             keep_history_size chunk_size max_delete_size dry_run s in
  (exists e, trace x = [EGet (count_request project job_filter) (Raise e)]) \/
  exists doc tl tr,
    fst (get (count_request project job_filter) s) = Return doc /\
    let total := total_attr doc in
    let d := deletions_of total keep_history_size max_delete_size in
    trace x = [EGet (count_request project job_filter) (Return doc); EInfoPlan d total]
              ++ tl ++ tr /\
    ((tl = [] /\ tr = []) \/
     (chunk_size <> 0 /\
      (exists st s1,
         tl = trace (for_each (range (d / chunk_size))
                       (chunk_body get post project job_filter total chunk_size dry_run)
                       st s1)) /\
      (tr = [] \/
       exists st s1,
         tr = trace (purge_rest get post project job_filter dry_run
                       (d mod chunk_size) st s1)))).
Proof.
  intros x. subst x. rewrite purge_history_run. cbv zeta.
  destruct (fst (get _ s)) as [doc|e] eqn:Eg; [right|left; now exists e].
  exists doc.
  destruct (Z.eqb_spec chunk_size 0) as [Hc|Hc].
  - exists [], []. split; [reflexivity|]. split; [reflexivity|]. now left.
  - destruct (result (for_each _ _ _ _)) as [st|e] eqn:El.
    + eexists _, _. split; [reflexivity|]. rewrite trace_run.
      split; [reflexivity|]. right. split; [exact Hc|]. split.
      * now eexists _, _.
      * right. now eexists _, _.
    + eexists _, []. split; [reflexivity|]. rewrite trace_run, app_nil_r.
      split; [reflexivity|]. right. split; [exact Hc|]. split.
      * now eexists _, _.
      * now left.
Qed.

End Parts.

(** X5. Against a server that never lists more ids than asked for, and
    with a chunk size of at least 1, the slice [ids[-chunk_size:]] never
    removes anything: every answer to a request for a window is handed to
    [delete_executions] whole. *)
Theorem nothing_is_cut_off {remote : Type}
    (get : history_request -> remote -> outcome history_doc * remote)
    (post : list string -> remote -> outcome delete_doc * remote)
    (project : string) (job_filter : option string)
    (keep_history_size chunk_size max_delete_size : Z) (dry_run : bool)
    (s : remote) :
  honours_max get ->
  0 < chunk_size ->
  let x := purge_history get post project job_filter
             keep_history_size chunk_size max_delete_size dry_run s in
  announced (trace x) = tail (fetched (trace x)).
Proof.
  intros Hmax Hc x.
  destruct (purge_history_parts get post project job_filter keep_history_size
              chunk_size max_delete_size dry_run s)
    as [[e He]|(doc & tl & tr & _ & Ht & Hparts)]; fold x in He || fold x in Ht.
  - now rewrite He.
  - cbv zeta in Ht, Hparts. rewrite Ht, announced_app, fetched_app. simpl.
    rewrite announced_app, fetched_app.
    destruct Hparts as [[-> ->]|(_ & (st & s1 & ->) & Hr)]; [reflexivity|].
    rewrite for_each_announced.
    rewrite (map_slice_from_short chunk_size _ Hc
               (for_each_fetched get post project job_filter dry_run _ chunk_size
                  _ st s1 Hmax Hc)).
    f_equal. destruct Hr as [->|(st' & s1' & ->)]; [reflexivity|].
    now destruct (purge_rest_facts get post project job_filter dry_run
                    (deletions_of (total_attr doc) keep_history_size max_delete_size
                     mod chunk_size) st' s1') as (_ & -> & _).
Qed.

Lemma Archive_honours_max : honours_max Archive.get.
Proof.
  intros rq s doc [= <-]. simpl. unfold Archive.window.
  rewrite length_firstn. lia.
Qed.

Lemma nothing_is_cut_off_witness :
  honours_max Archive.get /\ 0 < 2 /\
  announced (trace (Archive.run (Archive.fresh 5) 2 2 10 false))
  = tail (fetched (trace (Archive.run (Archive.fresh 5) 2 2 10 false))).
Proof.
  split; [exact Archive_honours_max|]. split; [lia|].
  apply (nothing_is_cut_off Archive.get Archive.post "p" None 2 2 10 false
           (Archive.fresh 5) Archive_honours_max ltac:(lia)).
Defined.

(** X6. The cap is honoured: for arguments that are not negative and a
    chunk size of at least 1, against a server that never lists more ids
    than asked for, the ids that a run posts for deletion are, all batches
    together, at most [deletions] many, which is at most
    [max_delete_size] and at most [total - min(total, keep)]; this also
    when an exception cuts the run short. *)
Theorem cap_is_honoured {remote : Type}
    (get : history_request -> remote -> outcome history_doc * remote)
    (post : list string -> remote -> outcome delete_doc * remote)
    (project : string) (job_filter : option string)
    (keep_history_size chunk_size max_delete_size : Z) (dry_run : bool)
    (s : remote) (doc : history_doc) :
  fst (get (count_request project job_filter) s) = Return doc ->
  honours_max get ->
  0 <= total_attr doc -> 0 <= keep_history_size -> 0 <= max_delete_size ->
  1 <= chunk_size ->
  let total := total_attr doc in
  let d := deletions_of total keep_history_size max_delete_size in
  let x := purge_history get post project job_filter
             keep_history_size chunk_size max_delete_size dry_run s in
  Z.of_nat (length (concat (posts (trace x)))) <= d /\
  d <= max_delete_size /\
  d <= total - Z.min total keep_history_size.
Proof.
  intros Hdoc Hmax Ht Hk Hm Hc total d x.
  destruct (plan_arith total keep_history_size max_delete_size chunk_size Ht Hk Hm Hc)
    as (Hd & Hdiv & Hmod & Hn).
  fold d in Hd, Hdiv, Hmod, Hn.
  split; [|split; [unfold d, deletions_of; lia|lia]].
  assert (Hann : Z.of_nat (length (concat (announced (trace x)))) <= d).
  { destruct (purge_history_parts get post project job_filter keep_history_size
                chunk_size max_delete_size dry_run s)
      as [[e He]|(doc' & tl & tr & Hdoc' & Htr & Hparts)];
      fold x in He || fold x in Htr.
    - rewrite He. simpl. lia.
    - rewrite Hdoc in Hdoc'. injection Hdoc' as <-.
      cbv zeta in Htr, Hparts. fold total d in Htr, Hparts.
      rewrite Htr, !announced_app. simpl announced at 1. simpl app at 1.
      rewrite concat_app, length_app.
      destruct Hparts as [[-> ->]|(_ & (st & s1 & ->) & Hr)]; [simpl; lia|].
      assert (Hl : Z.of_nat (length (concat (announced (trace
                     (for_each (range (d / chunk_size))
                        (chunk_body get post project job_filter total chunk_size dry_run)
                        st s1))))) <= chunk_size * (d / chunk_size)).
      { rewrite for_each_announced.
        rewrite (map_slice_from_short chunk_size _ ltac:(lia)
                   (for_each_fetched get post project job_filter dry_run _ chunk_size
                      _ st s1 Hmax ltac:(lia))).
        pose proof (length_concat_le chunk_size _
                      (for_each_fetched get post project job_filter dry_run total
                         chunk_size (range (d / chunk_size)) st s1 Hmax ltac:(lia)))
          as Hsum.
        pose proof (length_fetched_le (trace (for_each (range (d / chunk_size))
                      (chunk_body get post project job_filter total chunk_size dry_run)
                      st s1))) as Hle.
        destruct (for_each_chunks get post project job_filter total chunk_size dry_run
                    (range (d / chunk_size)) st s1) as [[k Hk'] _].
        apply (f_equal (@length _)) in Hk'.
        rewrite length_map, length_range, length_app in Hk'.
        nia. }
      assert (Hrest : Z.of_nat (length (concat (announced tr))) <= d mod chunk_size).
      { destruct Hr as [->|(st' & s1' & ->)]; [simpl; lia|].
        destruct (purge_rest_facts get post project job_filter dry_run
                    (d mod chunk_size) st' s1') as (_ & -> & Hone & _).
        pose proof (purge_rest_fetched get post project job_filter dry_run
                      (d mod chunk_size) st' s1' Hmax) as Hf.
        destruct (fetched (trace _)) as [|ids [|ids' rest]]; simpl in *; [lia| |lia].
        inversion Hf; subst. rewrite app_nil_r. lia. }
      lia. }
  pose proof (purge_history_posts get post project job_filter keep_history_size
                chunk_size max_delete_size dry_run s) as Hp.
  fold x in Hp. rewrite Hp. destruct dry_run; [simpl; lia|exact Hann].
Qed.

Lemma cap_is_honoured_witness :
  fst (Archive.get (count_request "p" None) (Archive.fresh 9))
    = Return {| total_attr := 9; event_ids := [] |} /\
  honours_max Archive.get /\
  0 <= 9 /\ 0 <= 2 /\ 0 <= 5 /\ 1 <= 2 /\
  Z.of_nat (length (concat (posts (trace (Archive.run (Archive.fresh 9) 2 2 5 false)))))
    <= deletions_of 9 2 5 /\
  deletions_of 9 2 5 <= 5 /\
  deletions_of 9 2 5 <= 9 - Z.min 9 2 /\
  Archive.executions (final (Archive.run (Archive.fresh 9) 2 2 5 false))
    = ["9"; "8"; "7"; "6"].
Proof.
  split; [reflexivity|]. split; [exact Archive_honours_max|]. do 4 (split; [lia|]).
  destruct (cap_is_honoured Archive.get Archive.post "p" None 2 2 5 false
              (Archive.fresh 9) {| total_attr := 9; event_ids := [] |}
              eq_refl Archive_honours_max ltac:(simpl; lia) ltac:(lia) ltac:(lia)
              ltac:(lia)) as (H1 & H2 & H3).
  split; [exact H1|]. split; [exact H2|]. split; [exact H3|]. reflexivity.
Defined.

(** ** Against the reference server *)

Lemma mem_string_In x l : mem_string x l = true <-> In x l.
Proof.
  unfold mem_string. rewrite existsb_exists. split.
  - intros (y & Hy & He). apply String.eqb_eq in He. now subst.
  - intros Hx. exists x. split; [exact Hx|apply String.eqb_refl].
Qed.

Lemma filter_all {A : Type} (f : A -> bool) (l : list A) :
  (forall x, In x l -> f x = true) -> List.filter f l = l.
Proof.
  induction l as [|a l IH]; intros Hf; simpl; [reflexivity|].
  rewrite (Hf a (or_introl eq_refl)). f_equal. apply IH.
  intros x Hx. apply Hf. now right.
Qed.

Lemma filter_none {A : Type} (f : A -> bool) (l : list A) :
  (forall x, In x l -> f x = false) -> List.filter f l = [].
Proof.
  induction l as [|a l IH]; intros Hf; simpl; [reflexivity|].
  rewrite (Hf a (or_introl eq_refl)). apply IH.
  intros x Hx. apply Hf. now right.
Qed.

(** Removing a suffix of a list without repetition leaves the prefix. *)
Lemma filter_not_suffix (a b : list string) :
  List.NoDup (a ++ b) ->
  List.filter (fun id => negb (mem_string id b)) (a ++ b) = a.
Proof.
  intros Hnd. rewrite List.filter_app.
  rewrite (filter_all _ a), (filter_none _ b), app_nil_r; [reflexivity| |].
  - intros x Hx. apply negb_false_iff. now apply mem_string_In.
  - intros x Hx. apply negb_true_iff.
    destruct (mem_string x b) eqn:Hm; [|reflexivity].
    apply mem_string_In in Hm. destruct (nodup_app_disjoint a b x Hnd Hx Hm).
Qed.

Lemma NoDup_firstn_list (k : nat) (e : list string) :
  List.NoDup e -> List.NoDup (firstn k e).
Proof.
  intros Hnd. rewrite <- (firstn_skipn k e) in Hnd.
  now apply List.NoDup_app_remove_r in Hnd.
Qed.

(** The reference server, asked to delete the executions from position
    [k] on, deletes them all and keeps the first [k]. *)
Lemma Archive_post_suffix (e : list string) (k : nat) :
  List.NoDup e ->
  Archive.post (skipn k e) {| Archive.executions := e; Archive.protected := [] |}
  = (Return {| successful_count := Z.of_nat (length (skipn k e));
               allsuccessful := "true";
               execution_messages := [] |},
     {| Archive.executions := firstn k e; Archive.protected := [] |}).
Proof.
  intros Hnd. unfold Archive.post. cbn [Archive.executions Archive.protected].
  assert (Hgone : List.filter
                    (Archive.deletable {| Archive.executions := e; Archive.protected := [] |})
                    (skipn k e) = skipn k e).
  { apply filter_all. intros x Hx. unfold Archive.deletable. simpl.
    rewrite andb_true_r. apply mem_string_In. now apply in_skipn in Hx. }
  assert (Hkept : List.filter
                    (fun id => negb (Archive.deletable
                       {| Archive.executions := e; Archive.protected := [] |} id))
                    (skipn k e) = []).
  { apply filter_none. intros x Hx. unfold Archive.deletable. simpl.
    rewrite andb_true_r. apply negb_false_iff. apply mem_string_In.
    now apply in_skipn in Hx. }
  rewrite Hgone, Hkept. simpl length at 2. cbn [Nat.eqb].
  f_equal. f_equal.
  pose proof (filter_not_suffix (firstn k e) (skipn k e)) as Hf.
  rewrite firstn_skipn in Hf. now apply Hf.
Qed.

Lemma window_tail (e : list string) (offset hmax : Z) :
  0 <= offset -> 0 <= hmax -> Z.of_nat (length e) = offset + hmax ->
  Archive.window offset hmax e = skipn (Z.to_nat offset) e.
Proof.
  intros Ho Hm Hlen. unfold Archive.window.
  apply firstn_all2. rewrite length_skipn. lia.
Qed.

Lemma Archive_delete_suffix (e : list string) (k : nat) :
  List.NoDup e ->
  delete_executions Archive.post (skipn k e) false (unguarded e)
  = (Return (Z.of_nat (length (skipn k e))), unguarded (firstn k e),
     [EInfoPurge (length (skipn k e)) (skipn k e);
      EPost (skipn k e)
        (Return {| successful_count := Z.of_nat (length (skipn k e));
                   allsuccessful := "true";
                   execution_messages := [] |})]).
Proof.
  intros Hnd. rewrite delete_executions_run. unfold unguarded.
  rewrite Archive_post_suffix by exact Hnd. reflexivity.
Qed.

Section Reference.

Variables (project : string) (job_filter : option string).
Variables (total chunk_size : Z).

(** One turn of the loop against the reference server: the last
    [chunk_size] executions go. *)
Lemma Archive_chunk i st (e : list string) :
  List.NoDup e -> 0 < chunk_size ->
  Z.of_nat (length e) = total - chunk_size * i ->
  0 <= total - chunk_size * (i + 1) ->
  let x := chunk_body Archive.get Archive.post project job_filter total chunk_size
             false i st (unguarded e) in
  result x = Return (total - chunk_size * (i + 1), snd st + chunk_size) /\
  final x = unguarded (firstn (Z.to_nat (total - chunk_size * (i + 1))) e).
Proof.
  intros Hnd Hc Hlen Hoff x. subst x. rewrite chunk_body_run. cbv zeta.
  cbn [Archive.get fst snd event_ids rq_offset rq_max fetch_request].
  change (Archive.executions (unguarded e)) with e.
  rewrite (window_tail e (total - chunk_size * (i + 1)) chunk_size) by lia.
  rewrite slice_from_short by (rewrite ?length_skipn; lia).
  rewrite Archive_delete_suffix by exact Hnd.
  rewrite !result_run, final_run. split; [|reflexivity].
  do 2 f_equal. rewrite length_skipn. lia.
Qed.

(** The loop over the indices [a], ..., [a + b - 1]. *)
Lemma Archive_loop (b : nat) : forall (a : nat) st (e : list string),
  List.NoDup e -> 0 < chunk_size ->
  Z.of_nat (length e) = total - chunk_size * Z.of_nat a ->
  0 <= total - chunk_size * Z.of_nat (a + b) ->
  let x := for_each (map Z.of_nat (seq a b))
             (chunk_body Archive.get Archive.post project job_filter total chunk_size
                false) st (unguarded e) in
  result x = Return (if b is O then fst st
                     else total - chunk_size * Z.of_nat (a + b),
                     snd st + chunk_size * Z.of_nat b) /\
  final x = unguarded (firstn (Z.to_nat (total - chunk_size * Z.of_nat (a + b))) e).
Proof.
  induction b as [|b IH]; intros a st e Hnd Hc Hlen Hoff x; subst x.
  - cbn [seq map for_each]. unfold ret. rewrite result_run, final_run. split.
    + destruct st. simpl. do 2 f_equal. lia.
    + f_equal. symmetry. apply firstn_all2. lia.
  - simpl seq. simpl map.
    change (for_each (Z.of_nat a :: ?l) ?f st ?s) with (bind (f (Z.of_nat a) st) (for_each l f) s).
    destruct (Archive_chunk (Z.of_nat a) st e Hnd Hc Hlen ltac:(nia)) as [Hr Hf].
    cbv zeta in Hr, Hf.
    destruct (bind_returned _ (for_each (map Z.of_nat (seq (S a) b))
                 (chunk_body Archive.get Archive.post project job_filter total
                    chunk_size false)) _ _ Hr) as (-> & -> & _).
    rewrite Hf.
    destruct (IH (S a) (total - chunk_size * (Z.of_nat a + 1), snd st + chunk_size)
                (firstn (Z.to_nat (total - chunk_size * (Z.of_nat a + 1))) e)
                (NoDup_firstn_list _ _ Hnd) Hc
                ltac:(rewrite length_firstn; lia)
                ltac:(replace (S a + b)%nat with (a + S b)%nat by lia; exact Hoff))
      as [Hr' Hf'].
    cbv zeta in Hr', Hf'. rewrite Hr', Hf'.
    replace (S a + b)%nat with (a + S b)%nat by lia. split.
    + f_equal. f_equal; [|simpl snd; lia].
      destruct b; [|reflexivity]. simpl fst. f_equal. f_equal. lia.
    + f_equal. rewrite firstn_firstn. f_equal. lia.
Qed.

End Reference.

(** X7. Against the reference server (a listing without repetition, most
    recent first, of which every execution may be deleted), for a keep
    count and a cap that are not negative and a chunk size of at least 1,
    a run that is not dry returns the planned number of deletions and
    leaves exactly the [total - deletions] most recent executions; when
    the cap does not bind these are the [keep_history_size] most recent
    ones. *)
Theorem reference_server_keeps_the_recent
    (project : string) (job_filter : option string)
    (keep_history_size chunk_size max_delete_size : Z) (e : list string) :
  List.NoDup e ->
  0 <= keep_history_size -> 0 <= max_delete_size -> 1 <= chunk_size ->
  let total := Z.of_nat (length e) in
  let d := deletions_of total keep_history_size max_delete_size in
  let x := purge_history Archive.get Archive.post project job_filter
             keep_history_size chunk_size max_delete_size false (unguarded e) in
  result x = Return d /\
  final x = unguarded (firstn (Z.to_nat (total - d)) e) /\
  (total - keep_history_size <= max_delete_size ->
   final x = unguarded (firstn (Z.to_nat keep_history_size) e)).
Proof.
  intros Hnd Hk Hm Hc total d x.
  destruct (plan_arith total keep_history_size max_delete_size chunk_size
              ltac:(unfold total; lia) Hk Hm Hc) as (Hd & Hdiv & Hmod & Hn).
  fold d in Hd, Hdiv, Hmod, Hn.
  assert (Hmain : result x = Return d /\
                  final x = unguarded (firstn (Z.to_nat (total - d)) e)).
  { subst x. rewrite purge_history_run. cbv zeta.
    cbn [Archive.get fst snd total_attr].
    change (Archive.executions (unguarded e)) with e. fold total. fold d.
    destruct (Z.eqb_spec chunk_size 0) as [|_]; [lia|].
    unfold range.
    destruct (Archive_loop project job_filter total chunk_size
                (Z.to_nat (d / chunk_size)) 0 (total, 0) e Hnd ltac:(lia)
                ltac:(unfold total; lia) ltac:(nia)) as [Hr Hf].
    cbv zeta in Hr, Hf. rewrite Hr, Hf. simpl fst in Hr |- *. simpl snd in Hr |- *.
    rewrite result_run, final_run.
    set (e' := firstn (Z.to_nat (total - chunk_size * Z.of_nat (0 + Z.to_nat (d / chunk_size)))) e).
    assert (He' : Z.of_nat (length e') = total - chunk_size * (d / chunk_size)).
    { unfold e'. rewrite length_firstn. unfold total. nia. }
    assert (Hst : (if Z.to_nat (d / chunk_size) is O then total
                   else total - chunk_size * Z.of_nat (0 + Z.to_nat (d / chunk_size)))
                  = total - chunk_size * (d / chunk_size)).
    { destruct (Z.to_nat (d / chunk_size)) eqn:En; [|lia].
      replace (d / chunk_size) with 0 by lia. lia. }
    rewrite Hst. rewrite purge_rest_run.
    destruct (Z.gtb_spec (d mod chunk_size) 0) as [Hpos|Hzero].
    - cbv zeta. cbn [Archive.get fst snd event_ids rq_offset rq_max fetch_request].
      change (Archive.executions (unguarded e')) with e'.
      rewrite (window_tail e' (total - chunk_size * (d / chunk_size) - d mod chunk_size)
                 (d mod chunk_size)) by lia.
      rewrite Archive_delete_suffix by (apply NoDup_firstn_list; exact Hnd).
      repeat rewrite ?result_run, ?final_run. split.
      + f_equal. rewrite length_skipn. lia.
      + f_equal. unfold e'. rewrite firstn_firstn. f_equal. nia.
    - rewrite result_run, final_run. simpl snd. split.
      + f_equal. nia.
      + f_equal. unfold e'. f_equal. nia. }
  destruct Hmain as [Hres Hfin]. split; [exact Hres|]. split; [exact Hfin|].
  intros Hcap. rewrite Hfin. f_equal.
  assert (Hdk : d = total - Z.min total keep_history_size).
  { unfold d, deletions_of, keep_clamped. lia. }
  destruct (Z.le_gt_cases keep_history_size total) as [Hle|Hgt].
  - f_equal. lia.
  - rewrite !firstn_all2; [reflexivity| |]; unfold total in *; lia.
Qed.

Lemma NoDup_history_7 : List.NoDup (Archive.history 7).
Proof. repeat constructor; simpl; intuition discriminate. Qed.

Lemma reference_server_keeps_the_recent_witness :
  List.NoDup (Archive.history 7) /\
  0 <= 3 /\ 0 <= 100 /\ 1 <= 2 /\
  result (Archive.run (Archive.fresh 7) 3 2 100 false) = Return 4 /\
  Archive.executions (final (Archive.run (Archive.fresh 7) 3 2 100 false))
    = ["7"; "6"; "5"].
Proof.
  split; [exact NoDup_history_7|]. do 3 (split; [lia|]).
  destruct (reference_server_keeps_the_recent "p" None 3 2 100 (Archive.history 7)
              NoDup_history_7 ltac:(lia) ltac:(lia) ltac:(lia)) as (Hr & Hf & _).
  split.
  - exact Hr.
  - change (Archive.run (Archive.fresh 7) 3 2 100 false)
      with (purge_history Archive.get Archive.post "p" None 3 2 100 false
              (unguarded (Archive.history 7))).
    rewrite Hf. reflexivity.
Defined.

(** ** The exceptions of a run *)

Lemma ends_badly_app t1 t2 ex : ends_badly t2 ex -> ends_badly (t1 ++ t2) ex.
Proof.
  intros [(pre & rq & ->)|[(pre & ids & ->)|(pre & ids & fs & -> & Hw)]].
  - left. exists (t1 ++ pre), rq. now rewrite app_assoc.
  - right. left. exists (t1 ++ pre), ids. now rewrite app_assoc.
  - right. right. exists (t1 ++ pre), ids, fs. now rewrite app_assoc.
Qed.

Section Explained.

Context {remote : Type}.
Variable get : history_request -> remote -> outcome history_doc * remote.
Variable post : list string -> remote -> outcome delete_doc * remote.
Variable other : exn -> Prop.

Lemma explained_ret {A : Type} (a : A) (s : remote) : explained other (ret a s).
Proof. exact I. Qed.

Lemma explained_emit e (s : remote) : explained other (emit e s).
Proof. exact I. Qed.

Lemma explained_client_get rq s : explained other (client_get get rq s).
Proof.
  rewrite client_get_run. unfold explained. rewrite result_run, trace_run.
  destruct (fst (get rq s)) as [doc|ex]; [exact I|].
  right. left. now exists [], rq.
Qed.

Lemma explained_bind {A B : Type} (m : M remote A) (f : A -> M remote B) s :
  explained other (m s) -> (forall a s', explained other (f a s')) ->
  explained other (bind m f s).
Proof.
  intros Hm Hf. rewrite bind_run. unfold explained in Hm.
  destruct (result (m s)) as [a|ex] eqn:Er.
  - specialize (Hf a (final (m s))). unfold explained in *.
    rewrite result_run, trace_run.
    destruct (result (f a (final (m s)))) as [b|ex]; [exact I|].
    destruct Hf as [Ho|Hb]; [now left|]. right. now apply ends_badly_app.
  - unfold explained. rewrite result_run, trace_run. exact Hm.
Qed.

Lemma explained_for_each {A S : Type} (l : list A) (body : A -> S -> M remote S) :
  (forall x st s, explained other (body x st s)) ->
  forall st s, explained other (for_each l body st s).
Proof.
  intros Hbody. induction l as [|x l IH]; intros st s.
  - apply explained_ret.
  - change (for_each (x :: l) body st s) with (bind (body x st) (for_each l body) s).
    apply explained_bind; [apply Hbody|]. intros st' s'. apply IH.
Qed.

Lemma explained_get_execution_ids project job_filter offset hmax s :
  explained other (get_execution_ids get project job_filter offset hmax s).
Proof.
  unfold get_execution_ids, search_history.
  apply explained_bind; [apply explained_client_get|]. intros. apply explained_ret.
Qed.

Lemma explained_delete_executions ids dry_run s :
  explained other (delete_executions post ids dry_run s).
Proof.
  destruct dry_run.
  - now rewrite delete_executions_dry.
  - rewrite delete_executions_run. unfold explained.
    destruct (fst (post ids s)) as [doc|ex] eqn:Ep.
    + destruct (strtobool (allsuccessful doc)) as [[|]|ex] eqn:Ew;
        rewrite result_run, ?trace_run; try exact I.
      right. right. right. now exists [EInfoPurge (length ids) ids], ids, doc.
    + rewrite result_run, trace_run.
      right. right. left. now exists [EInfoPurge (length ids) ids], ids.
Qed.

End Explained.

(** X12. The exceptions of [purge_history].  A run that ends with an
    exception ends with [ZeroDivisionError] for a chunk size of 0, or its
    last event is a history request that raised that exception (in
    [Client.get], or in the lines that read the answer: a body that is
    not XML, a [total] that is missing or not a number, an event without
    [execution]), or, in a run that is not dry, its last event is a delete
    request that raised it (in [Client.post], or in the lines that read
    the answer: no [successful] count that is a number, no
    [allsuccessful]) or that was answered with an [allsuccessful] word
    which [strtobool] rejects with it.  The ids of that last request may
    be deleted all the same. *)
Theorem exceptions_of_a_run {remote : Type}
    (get : history_request -> remote -> outcome history_doc * remote)
    (post : list string -> remote -> outcome delete_doc * remote)
    (project : string) (job_filter : option string)
    (keep_history_size chunk_size max_delete_size : Z) (dry_run : bool)
    (s : remote) (ex : exn) :
  let x := purge_history get post project job_filter
             keep_history_size chunk_size max_delete_size dry_run s in
  result x = Raise ex ->
  (ex = ZeroDivisionError /\ chunk_size = 0) \/
  (exists pre rq, trace x = pre ++ [EGet rq (Raise ex)]) \/
  (dry_run = false /\ exists pre ids, trace x = pre ++ [EPost ids (Raise ex)]) \/
  (dry_run = false /\ exists pre ids fs,
     trace x = pre ++ [EPost ids (Return fs)] /\
     strtobool (allsuccessful fs) = Raise ex).
Proof.
  intros x Hr.
  assert (He : explained (fun ex => ex = ZeroDivisionError /\ chunk_size = 0) x).
  { subst x. unfold purge_history, get_history_total, search_history.
    apply explained_bind.
    { apply explained_bind; [apply explained_client_get|]. intros. apply explained_ret. }
    intros total s1.
    apply explained_bind; [apply explained_emit|]. intros _ s2.
    apply explained_bind.
    { unfold explained, lift, divmod.
      destruct (chunk_size =? 0) eqn:Ec; rewrite result_run; [|exact I].
      left. split; [reflexivity|lia]. }
    intros dm s3.
    apply explained_bind.
    { apply explained_for_each. intros i st s4. unfold chunk_body.
      apply explained_bind; [apply explained_get_execution_ids|]. intros ids s5.
      apply explained_bind; [apply explained_delete_executions|]. intros n s6.
      apply explained_bind; [apply explained_emit|]. intros. apply explained_ret. }
    intros st s4. destruct (snd dm >? 0); [|apply explained_ret].
    apply explained_bind; [apply explained_get_execution_ids|]. intros ids s5.
    apply explained_bind; [apply explained_delete_executions|]. intros.
    apply explained_ret. }
  unfold explained in He. rewrite Hr in He.
  pose proof (purge_history_posts get post project job_filter keep_history_size
                chunk_size max_delete_size dry_run s) as Hp.
  cbv zeta in Hp. fold x in Hp.
  assert (Hdry : forall pre ids r, trace x = pre ++ [EPost ids r] -> dry_run = false).
  { intros pre ids r Ht. destruct dry_run; [|reflexivity].
    rewrite Ht, posts_app in Hp. simpl in Hp.
    now destruct (posts pre). }
  destruct He as [Hz|[Hg|[(pre & ids & Ht)|(pre & ids & fs & Ht & Hw)]]].
  - now left.
  - right. now left.
  - right. right. left. split; [now apply (Hdry pre ids (Raise ex))|].
    now exists pre, ids.
  - right. right. right. split; [now apply (Hdry pre ids (Return fs))|].
    now exists pre, ids, fs.
Qed.

(** The server deletes the first batch and answers with a word that
    [strtobool] rejects: the run ends there, two executions fewer. *)
Lemma exceptions_of_a_run_witness :
  result (purge_history Archive.get vague_post "p" None 1 2 10 false (Archive.fresh 5))
    = Raise (ValueError "maybe") /\
  length (Archive.executions
            (final (purge_history Archive.get vague_post "p" None 1 2 10 false
                      (Archive.fresh 5)))) = 3%nat /\
  ((ValueError "maybe" = ZeroDivisionError /\ 2 = 0) \/
   (exists pre rq,
      trace (purge_history Archive.get vague_post "p" None 1 2 10 false (Archive.fresh 5))
      = pre ++ [EGet rq (Raise (ValueError "maybe"))]) \/
   (false = false /\ exists pre ids,
      trace (purge_history Archive.get vague_post "p" None 1 2 10 false (Archive.fresh 5))
      = pre ++ [EPost ids (Raise (ValueError "maybe"))]) \/
   (false = false /\ exists pre ids fs,
      trace (purge_history Archive.get vague_post "p" None 1 2 10 false (Archive.fresh 5))
      = pre ++ [EPost ids (Return fs)] /\
      strtobool (allsuccessful fs) = Raise (ValueError "maybe"))).
Proof.
  split; [reflexivity|]. split; [reflexivity|].
  apply (exceptions_of_a_run Archive.get vague_post "p" None 1 2 10 false
           (Archive.fresh 5) (ValueError "maybe") eq_refl).
Defined.

(** ** The script as a whole *)

Lemma purge_events_app t1 t2 : purge_events (t1 ++ t2) = purge_events t1 ++ purge_events t2.
Proof. unfold purge_events. now rewrite flat_map_app. Qed.

Lemma totals_app t1 t2 : totals (t1 ++ t2) = totals t1 ++ totals t2.
Proof. unfold totals. now rewrite flat_map_app. Qed.

Lemma purge_events_map p t : purge_events (map (SPurge p) t) = t.
Proof. induction t as [|e t IH]; simpl; [reflexivity|]. now rewrite IH. Qed.

Lemma totals_map p t : totals (map (SPurge p) t) = [].
Proof. induction t as [|e t IH]; simpl; [reflexivity|exact IH]. Qed.

Lemma listings_app t1 t2 : listings (t1 ++ t2) = (listings t1 + listings t2)%nat.
Proof. unfold listings. now rewrite List.filter_app, length_app. Qed.

Lemma listings_map p t : listings (map (SPurge p) t) = 0%nat.
Proof. induction t as [|e t IH]; simpl; [reflexivity|exact IH]. Qed.

Lemma script_quiet_map p t : quiet t -> script_quiet (map (SPurge p) t).
Proof.
  unfold quiet, script_quiet. induction 1 as [|e t He _ IH]; simpl; constructor; auto.
Qed.

Lemma script_quiet_app t1 t2 :
  script_quiet t1 -> script_quiet t2 -> script_quiet (t1 ++ t2).
Proof. unfold script_quiet. intros H1 H2. apply Forall_app. now split. Qed.

Section Script_facts.

Context {remote : Type}.
Variable get : history_request -> remote -> outcome history_doc * remote.
Variable post : list string -> remote -> outcome delete_doc * remote.
Variable projects : remote -> outcome (list string) * remote.
Variable args : arguments.

Lemma purge_projects_settled names : forall s,
  script_settled (purge_projects get post args names s).
Proof.
  induction names as [|p names IH]; intros s.
  - unfold script_settled. simpl. constructor.
  - simpl.
    pose proof (settled_purge_history get post p (arg_job_filter args)
                  (arg_keep_history_size args) (arg_chunk_size args)
                  (arg_max_delete_size args) (arg_dry_run args) s) as Hs.
    unfold settled, result, trace in Hs.
    destruct (purge_history get post p _ _ _ _ _ s) as [[[k|ex] s1] t]; simpl in Hs.
    + specialize (IH s1). unfold script_settled in IH.
      destruct (purge_projects get post args names s1) as [[r s2] t'].
      unfold script_settled. simpl in *.
      assert (Hq : script_quiet (map (SPurge p) t ++ [STotal k])).
      { apply script_quiet_app; [now apply script_quiet_map|]. now repeat constructor. }
      change (map (SPurge p) t ++ STotal k :: t')
        with (map (SPurge p) t ++ [STotal k] ++ t').
      rewrite app_assoc.
      destruct r as [u|ex].
      * now apply script_quiet_app.
      * destruct IH as [IH|(pre & ev & -> & Hpre & Hev)].
        -- left. now apply script_quiet_app.
        -- right. exists ((map (SPurge p) t ++ [STotal k]) ++ pre), ev.
           rewrite app_assoc. repeat split; [now apply script_quiet_app|exact Hev].
    + unfold script_settled. simpl.
      destruct Hs as [Hq|(pre & ev & -> & Hpre & Hev)].
      * left. now apply script_quiet_map.
      * right. exists (map (SPurge p) pre), (SPurge p ev).
        rewrite map_app. repeat split; [now apply script_quiet_map|exact Hev].
Qed.

Lemma main_settled s : script_settled (main get post projects args s).
Proof.
  unfold main. destruct (truthy (arg_project args)).
  - pose proof (purge_projects_settled
                  (match arg_project args with Some p => [p] | None => [] end) s) as Hs.
    destruct (purge_projects get post args _ s) as [[r s2] t']. exact Hs.
  - unfold get_projects. destruct (projects s) as [[names|ex] s1].
    + pose proof (purge_projects_settled names s1) as Hs.
      destruct (purge_projects get post args names s1) as [[r s2] t'].
      unfold script_settled in *. simpl in *.
      assert (Hq : script_quiet [SGetProjects (Return names)]) by now repeat constructor.
      destruct r as [u|ex].
      * now apply (script_quiet_app [_]).
      * destruct Hs as [Hs|(pre & ev & -> & Hpre & Hev)].
        -- left. now apply (script_quiet_app [_]).
        -- right. exists (SGetProjects (Return names) :: pre), ev.
           repeat split; [|exact Hev]. now apply (script_quiet_app [_]).
    + unfold script_settled. simpl. right.
      exists [], (SGetProjects (Raise ex)). repeat split. constructor.
Qed.

(** Only the projects of the list are touched: every request names one
    of them, the one whose purge it belongs to; in a dry run nothing is
    posted, and there is no request for the list of projects. *)
Lemma purge_projects_events names : forall s,
  let t := snd (purge_projects get post args names s) in
  listings t = 0%nat /\
  Forall (purges names (arg_job_filter args)) t /\
  (arg_dry_run args = true -> posts (purge_events t) = []).
Proof.
  induction names as [|p names IH]; intros s t; subst t.
  - simpl. repeat split. constructor.
  - simpl.
    pose proof (purge_history_dry_posts get post p (arg_job_filter args)
                  (arg_keep_history_size args) (arg_chunk_size args)
                  (arg_max_delete_size args) (arg_dry_run args) s) as Hdry.
    pose proof (purge_history_request_of get post p (arg_job_filter args)
                  (arg_keep_history_size args) (arg_chunk_size args)
                  (arg_max_delete_size args) (arg_dry_run args) s) as Hreq.
    unfold trace in Hdry, Hreq.
    destruct (purge_history get post p _ _ _ _ _ s) as [[[k|ex] s1] t];
      simpl in Hdry, Hreq.
    + destruct (IH s1) as (Hl & Hall & Hp).
      destruct (purge_projects get post args names s1) as [[r s2] t']. simpl in *.
      split; [|split].
      * change (STotal k :: t') with ([STotal k] ++ t').
        now rewrite !listings_app, listings_map, Hl.
      * apply Forall_app. split.
        -- apply List.Forall_forall. intros e He. apply in_map_iff in He.
           destruct He as (e' & <- & He'). split; [now left|].
           now apply (proj1 (List.Forall_forall _ _) Hreq).
        -- constructor; [exact I|].
           revert Hall. apply List.Forall_impl.
           intros [ | q e' | ]; simpl; auto. intros [Hq He']. auto.
      * intros Hd. change (STotal k :: t') with ([STotal k] ++ t').
        rewrite !purge_events_app, purge_events_map, !posts_app, (Hdry Hd), (Hp Hd).
        reflexivity.
    + simpl. split; [apply listings_map|]. split.
      * apply List.Forall_forall. intros e He. apply in_map_iff in He.
        destruct He as (e' & <- & He'). split; [now left|].
        now apply (proj1 (List.Forall_forall _ _) Hreq).
      * intros Hd. now rewrite purge_events_map, (Hdry Hd).
Qed.

(** Against a server that answers, every project of the list is purged
    and its total written to the log. *)
Lemma purge_projects_returns names : forall s,
  get_ok get -> arg_dry_run args = true \/ post_ok post -> arg_chunk_size args <> 0 ->
  let x := purge_projects get post args names s in
  fst (fst x) = Return tt /\
  length (totals (snd x)) = length names /\
  fold_right Z.add 0 (totals (snd x)) = confirmed (purge_events (snd x)).
Proof.
  intros s Hget Hpost Hc. revert s.
  induction names as [|p names IH]; intros s x; subst x.
  - now simpl.
  - simpl.
    destruct (purge_history_returns get post p (arg_job_filter args)
                (arg_keep_history_size args) (arg_chunk_size args)
                (arg_max_delete_size args) (arg_dry_run args) s Hget Hpost Hc)
      as [k Hk].
    pose proof (purge_history_confirmed get post p (arg_job_filter args)
                  (arg_keep_history_size args) (arg_chunk_size args)
                  (arg_max_delete_size args) (arg_dry_run args) s k Hk) as Hconf.
    unfold result, trace in Hk, Hconf.
    destruct (purge_history get post p _ _ _ _ _ s) as [[r s1] t].
    simpl in Hk, Hconf. subst r.
    destruct (IH s1) as (Hr & Hlen & Hsum).
    destruct (purge_projects get post args names s1) as [[r s2] t']. simpl in *.
    split; [exact Hr|].
    change (STotal k :: t') with ([STotal k] ++ t').
    rewrite !totals_app, totals_map, !purge_events_app, purge_events_map, confirmed_app.
    simpl. split; [now rewrite Hlen|]. rewrite Hsum. lia.
Qed.

End Script_facts.

(** X8. The script stops at the first failure: a request that raises
    (in [Client.get] or [Client.post]: no answer, or [raise_for_status]
    on a 4xx or 5xx status; or in the lines that read its answer), be it
    the request for the list of projects or a request of some project's
    purge, is the last event of the script and its exception ends it; the
    projects that follow are not touched. *)
Theorem script_stops_at_first_failure {remote : Type}
    (get : history_request -> remote -> outcome history_doc * remote)
    (post : list string -> remote -> outcome delete_doc * remote)
    (projects : remote -> outcome (list string) * remote)
    (args : arguments) (s : remote)
    (before after : list script_event) (ev : script_event) (ex : exn) :
  snd (main get post projects args s) = before ++ ev :: after ->
  script_failure ev = Some ex ->
  after = [] /\ fst (fst (main get post projects args s)) = Raise ex.
Proof.
  intros Ht Hev. pose proof (main_settled get post projects args s) as Hs.
  unfold script_settled in Hs.
  assert (Hnot : ~ script_quiet (snd (main get post projects args s))).
  { intros Hq. rewrite Ht in Hq. apply Forall_app in Hq. destruct Hq as [_ Hq].
    inversion Hq; subst. congruence. }
  destruct (fst (fst (main get post projects args s))) as [u|ex']; [contradiction|].
  destruct Hs as [Hq|(pre & ev' & Ht' & Hq & Hev')]; [contradiction|].
  rewrite Ht in Ht'.
  destruct (failure_is_last script_failure before after pre ev ev' Ht' Hq
              ltac:(congruence)) as [-> <-].
  split; [reflexivity|]. congruence.
Qed.

(** The server goes down after it has listed the projects: the count
    query of the first project fails and the second project is never
    asked about. *)
Lemma script_stops_at_first_failure_witness :
  snd (main Flaky.get Flaky.post (Flaky.projects ["a"; "b"]) (example_args false None)
         (1%nat, Archive.fresh 5))
  = [SGetProjects (Return ["a"; "b"])]
    ++ SPurge "a" (EGet (count_request "a" None) (Raise (HTTPError 503))) :: [] /\
  script_failure (SPurge "a" (EGet (count_request "a" None) (Raise (HTTPError 503))))
    = Some (HTTPError 503) /\
  fst (fst (main Flaky.get Flaky.post (Flaky.projects ["a"; "b"])
              (example_args false None) (1%nat, Archive.fresh 5)))
    = Raise (HTTPError 503).
Proof.
  assert (Ht :
    snd (main Flaky.get Flaky.post (Flaky.projects ["a"; "b"]) (example_args false None)
           (1%nat, Archive.fresh 5))
    = [SGetProjects (Return ["a"; "b"])]
      ++ SPurge "a" (EGet (count_request "a" None) (Raise (HTTPError 503))) :: [])
    by reflexivity.
  split; [exact Ht|]. split; [reflexivity|].
  apply (script_stops_at_first_failure Flaky.get Flaky.post (Flaky.projects ["a"; "b"])
           (example_args false None) (1%nat, Archive.fresh 5) _ [] _ (HTTPError 503)
           Ht eq_refl).
Defined.

(** X9. Which projects the script touches.  With a project given (and
    not empty) the list of projects is never asked for, and every history
    request of the script names that project in its [project] parameter;
    without one (or with an empty one) the script first asks for the list,
    once, and every history request after that names a project of the
    answer, the one whose purge it belongs to.  In both cases the request
    carries the job filter of the arguments. *)
Theorem script_touches_listed_projects {remote : Type}
    (get : history_request -> remote -> outcome history_doc * remote)
    (post : list string -> remote -> outcome delete_doc * remote)
    (projects : remote -> outcome (list string) * remote)
    (args : arguments) (s : remote) :
  let t := snd (main get post projects args s) in
  (forall p, arg_project args = Some p -> truthy (arg_project args) = true ->
   listings t = 0%nat /\
   Forall (purges [p] (arg_job_filter args)) t /\
   Forall (fun e => match e with
                    | EGet rq _ => rq_project rq = p
                    | _ => True
                    end) (purge_events t)) /\
  (truthy (arg_project args) = false ->
   exists t', t = SGetProjects (fst (projects s)) :: t' /\
     listings t' = 0%nat /\
     forall names, fst (projects s) = Return names ->
       Forall (purges names (arg_job_filter args)) t' /\
       Forall (fun e => match e with
                        | EGet rq _ => In (rq_project rq) names
                        | _ => True
                        end) (purge_events t')).
Proof.
  assert (Hreq : forall names (t : list script_event),
    Forall (purges names (arg_job_filter args)) t ->
    Forall (fun e => match e with
                     | EGet rq _ => In (rq_project rq) names
                     | _ => True
                     end) (purge_events t)).
  { intros names t Hall. induction Hall as [|e t He _ IH]; [constructor|].
    destruct e as [r|q e'|k]; simpl; try exact IH.
    constructor; [|exact IH].
    destruct He as [Hq He']. destruct e' as [rq r| | | | | ]; try exact I.
    destruct He' as [-> _]. exact Hq. }
  intros t. subst t. unfold main. split.
  - intros p Ep Htruthy. rewrite Htruthy, Ep.
    destruct (purge_projects_events get post args [p] s) as (Hl & Hall & _).
    destruct (purge_projects get post args [p] s) as [[r s2] t']. simpl in *.
    split; [exact Hl|]. split; [exact Hall|].
    specialize (Hreq [p] t' Hall). revert Hreq. apply List.Forall_impl.
    intros [rq r'| | | | | ]; simpl; auto. now intros [->|[]].
  - intros Htruthy. rewrite Htruthy.
    unfold get_projects. destruct (projects s) as [[names|ex] s1]; simpl.
    + destruct (purge_projects_events get post args names s1) as (Hl & Hall & _).
      destruct (purge_projects get post args names s1) as [[r s2] t']. simpl in *.
      exists t'. split; [reflexivity|]. split; [exact Hl|].
      intros names' [= <-]. split; [exact Hall|]. now apply Hreq.
    + exists []. split; [reflexivity|]. split; [reflexivity|]. discriminate.
Qed.

(** With [-p b] the two history requests of the run name [b]; with an
    empty [-p] the list is asked for first. *)
Lemma script_touches_listed_projects_witness :
  truthy (arg_project (example_args false (Some "b"))) = true /\
  listings (snd (main Archive.get Archive.post (serving ["a"; "b"])
                   (example_args false (Some "b")) (Archive.fresh 5))) = 0%nat /\
  map rq_project
    (flat_map (fun e => match e with EGet rq _ => [rq] | _ => [] end)
       (purge_events (snd (main Archive.get Archive.post (serving ["a"; "b"])
                             (example_args false (Some "b")) (Archive.fresh 5)))))
    = ["b"; "b"; "b"] /\
  truthy (arg_project (example_args false (Some ""))) = false /\
  exists t',
    snd (main Archive.get Archive.post (serving ["a"; "b"])
           (example_args false (Some "")) (Archive.fresh 5))
    = SGetProjects (Return ["a"; "b"]) :: t' /\ listings t' = 0%nat.
Proof.
  split; [reflexivity|]. split.
  - now destruct (script_touches_listed_projects Archive.get Archive.post
                    (serving ["a"; "b"]) (example_args false (Some "b"))
                    (Archive.fresh 5)) as [H _]; destruct (H "b" eq_refl eq_refl).
  - split; [reflexivity|]. split; [reflexivity|].
    destruct (script_touches_listed_projects Archive.get Archive.post
                (serving ["a"; "b"]) (example_args false (Some ""))
                (Archive.fresh 5)) as [_ H].
    destruct (H eq_refl) as (t' & Ht & Hl & _). now exists t'.
Defined.

(** X10. A dry run of the whole script sends no delete request, for any
    project. *)
Theorem script_dry_run_deletes_nothing {remote : Type}
    (get : history_request -> remote -> outcome history_doc * remote)
    (post : list string -> remote -> outcome delete_doc * remote)
    (projects : remote -> outcome (list string) * remote)
    (args : arguments) (s : remote) :
  arg_dry_run args = true ->
  posts (purge_events (snd (main get post projects args s))) = [].
Proof.
  intros Hdry. unfold main.
  destruct (truthy (arg_project args)).
  - destruct (purge_projects_events get post args
                (match arg_project args with Some p => [p] | None => [] end) s)
      as (_ & _ & Hp).
    destruct (purge_projects get post args _ s) as [[r s2] t']. simpl in *.
    now apply Hp.
  - unfold get_projects. destruct (projects s) as [[names|ex] s1]; [|reflexivity].
    destruct (purge_projects_events get post args names s1) as (_ & _ & Hp).
    destruct (purge_projects get post args names s1) as [[r s2] t']. simpl in *.
    now apply Hp.
Qed.

Lemma script_dry_run_deletes_nothing_witness :
  arg_dry_run (example_args true None) = true /\
  posts (purge_events (snd (main Archive.get Archive.post (serving ["a"; "b"])
                              (example_args true None) (Archive.fresh 5)))) = [] /\
  Archive.executions (snd (fst (main Archive.get Archive.post (serving ["a"; "b"])
                                  (example_args true None) (Archive.fresh 5))))
    = Archive.history 5.
Proof.
  split; [reflexivity|]. split; [|reflexivity].
  apply (script_dry_run_deletes_nothing Archive.get Archive.post (serving ["a"; "b"])
           (example_args true None) (Archive.fresh 5) eq_refl).
Defined.

(** X11. Against a server whose answers can all be read (the list of
    projects, every history answer and, unless the run is dry, every
    delete answer, which must carry an [allsuccessful] word that
    [strtobool] accepts), and with a chunk size that is not zero, the
    script ends normally; it writes one total to the log for each project
    it was to purge, and the totals add up to the counts that the server
    confirmed. *)
Theorem script_purges_every_project {remote : Type}
    (get : history_request -> remote -> outcome history_doc * remote)
    (post : list string -> remote -> outcome delete_doc * remote)
    (projects : remote -> outcome (list string) * remote)
    (args : arguments) (s : remote) (names : list string) :
  get_ok get ->
  arg_dry_run args = true \/ post_ok post ->
  arg_chunk_size args <> 0 ->
  truthy (arg_project args) = true \/ fst (projects s) = Return names ->
  let x := main get post projects args s in
  fst (fst x) = Return tt /\
  length (totals (snd x))
    = (if truthy (arg_project args) then 1%nat else length names) /\
  fold_right Z.add 0 (totals (snd x)) = confirmed (purge_events (snd x)).
Proof.
  intros Hget Hpost Hc Hnames x. subst x. unfold main.
  destruct (truthy (arg_project args)) eqn:Htruthy.
  - destruct (arg_project args) as [p|]; [|discriminate].
    destruct (purge_projects_returns get post args [p] s Hget Hpost Hc)
      as (Hr & Hlen & Hsum).
    destruct (purge_projects get post args [p] s) as [[r s2] t']. simpl in *.
    now repeat split.
  - destruct Hnames as [Hnames|Hnames]; [discriminate|].
    unfold get_projects. destruct (projects s) as [[names'|ex] s1]; [|discriminate].
    simpl in Hnames. injection Hnames as ->.
    destruct (purge_projects_returns get post args names s1 Hget Hpost Hc)
      as (Hr & Hlen & Hsum).
    destruct (purge_projects get post args names s1) as [[r s2] t']. simpl in *.
    now repeat split.
Qed.

Lemma script_purges_every_project_witness :
  get_ok Archive.get /\
  (arg_dry_run (example_args false None) = true \/ post_ok Archive.post) /\
  arg_chunk_size (example_args false None) <> 0 /\
  fst (serving ["a"; "b"] (Archive.fresh 5)) = Return ["a"; "b"] /\
  fst (fst (main Archive.get Archive.post (serving ["a"; "b"])
              (example_args false None) (Archive.fresh 5))) = Return tt /\
  totals (snd (main Archive.get Archive.post (serving ["a"; "b"])
                 (example_args false None) (Archive.fresh 5))) = [3; 0].
Proof.
  split; [exact Archive_get_ok|]. split; [right; exact Archive_post_ok|].
  split; [simpl; lia|]. split; [reflexivity|].
  destruct (script_purges_every_project Archive.get Archive.post (serving ["a"; "b"])
              (example_args false None) (Archive.fresh 5) ["a"; "b"]
              Archive_get_ok (or_intror Archive_post_ok) ltac:(simpl; lia)
              (or_intror eq_refl))
    as (Hr & _).
  split; [exact Hr|reflexivity].
Defined.
